(** * HomeView: blueprint import view (src/views/HomeView.vue)

    A shallow embedding of the script block of the view: the module-level
    bindings become one record [State], every function of the script becomes
    a computation in a small state-and-exception monad, and the browser
    facilities the script relies on (animation frames, blob URLs, window
    listeners, the 2D canvas context) are part of the state.

    JavaScript numbers are IEEE 754 binary64 values: they are modelled by the
    primitive floats of the kernel, so that the arithmetic of the handlers is
    the arithmetic the browser performs. *)

From Stdlib Require Import Floats.PrimFloat Floats.SpecFloat Floats.FloatOps.
From Stdlib Require Import List String ZArith Lia Bool PeanoNat.
From Stdlib Require Import DecimalString.
Import ListNotations.

#[local] Open Scope float_scope.

(** ** Values *)

(** A JavaScript [number]. *)
Definition number : Set := float.

(** [Math.PI], the double nearest to pi. *)
Definition Math_PI : number := 0x1.921fb54442d18p+1.

Module Vector2.
Record t := mk { x : number; y : number }.

(** [THREE.Vector2.distanceToSquared] and [distanceTo]. *)
Definition distanceToSquared (a v : t) : number :=
  let dx := x a - x v in
  let dy := y a - y v in
  dx * dx + dy * dy.

Definition distanceTo (a v : t) : number :=
  PrimFloat.sqrt (distanceToSquared a v).
End Vector2.

Module Vector3.
Record t := mk { x : number; y : number; z : number }.
Definition zero : t := mk 0 0 0.
End Vector3.

(** [type Pt = { dx; dy; wx; wy }]: a stored point, with its display
    coordinates (relative to the container) and its world coordinates. *)
Record Pt := mkPt { dx : number; dy : number; wx : number; wy : number }.

(** ** DOM objects *)

Module DOMRect.
Record t := mk { left : number; top : number; width : number; height : number }.
End DOMRect.

(** The container [div]: what [getBoundingClientRect], [clientWidth] and
    [clientHeight] answer, and whether the renderer's canvas was appended. *)
Module HTMLDivElement.
Record t := mk {
  boundingClientRect : DOMRect.t;
  clientWidth : number;
  clientHeight : number;
  hasRendererCanvas : bool
}.
Definition appendRendererCanvas (e : t) : t :=
  mk (boundingClientRect e) (clientWidth e) (clientHeight e) true.
End HTMLDivElement.

(** The coordinate label: its text and the two style properties written. *)
Module Label.
Record t := mk { textContent : string; style_left : string; style_top : string }.
Definition set_textContent (v : string) (l : t) := mk v (style_left l) (style_top l).
Definition set_style_left (v : string) (l : t) := mk (textContent l) v (style_top l).
Definition set_style_top (v : string) (l : t) := mk (textContent l) (style_left l) v.
End Label.

Module HTMLCanvasElement.
Record t := mk { width : number; height : number }.
End HTMLCanvasElement.

(** The calls the script makes on the 2D context of the overlay canvas.
    The context is modelled by the sequence of calls it has received, in
    order: property writes are calls too. *)
Inductive CanvasCall :=
| ClearRect (x y w h : number)
| SetStrokeStyle (v : string)
| SetLineWidth (v : number)
| SetFillStyle (v : string)
| BeginPath
| MoveTo (x y : number)
| LineTo (x y : number)
| Stroke
| Arc (x y r a0 a1 : number)
| Fill.

Module CanvasRenderingContext2D.
Record t := mk { calls : list CanvasCall }.
Definition call (c : CanvasCall) (ctx : t) : t := mk (calls ctx ++ [c]).
End CanvasRenderingContext2D.

Record PointerEvent := mkPointerEvent { clientX : number; clientY : number }.

Record File := mkFile { fileName : string }.

(** A blob URL, as handed out by [URL.createObjectURL]. *)
Definition ObjectURL := nat.

(** ** three.js objects *)

Record Image := mkImage { image_width : number; image_height : number }.

Record Texture := mkTexture { image : Image; source : ObjectURL }.

Inductive Side := FrontSide | BackSide | DoubleSide.

(** [THREE.MeshBasicMaterial], with the parameters the script sets. *)
Module Material.
Record t := mk {
  map : option Texture;
  color : number;
  side : Side;
  opacity : number;
  transparent : bool
}.
(** The defaults of three.js: white, front side, opaque. *)
Definition default : t := mk None 0xffffffp0 FrontSide 1 false.
Definition with_map (tex : Texture) : t :=
  mk (Some tex) (color default) (side default) (opacity default) (transparent default).
End Material.

(** [THREE.Shape] built from a list of points: the outline, in order. *)
Record Shape := mkShape { outline : list Vector2.t }.

Inductive Geometry :=
| PlaneGeometry (w h : number)
| ShapeGeometry (s : Shape).

Module Mesh.
Record t := mk { geometry : Geometry; material : Material.t; position : Vector3.t }.
(** [new THREE.Mesh(geom, mat)]: a mesh at the origin. *)
Definition new (g : Geometry) (m : Material.t) : t := mk g m Vector3.zero.
End Mesh.

Module OrthographicCamera.
Record Frustum := mkFrustum {
  left : number; right : number; top : number; bottom : number;
  near : number; far : number
}.
(** The camera: its frustum, its position, the point it looks at, and the
    frustum its projection matrix was last computed from. *)
Record t := mk {
  frustum : Frustum;
  position : Vector3.t;
  target : Vector3.t;
  projection : Frustum
}.
Definition new (l r tp b n f : number) : t :=
  let fr := mkFrustum l r tp b n f in
  mk fr Vector3.zero (Vector3.mk 0 0 (-1)) fr.
Definition set_position (p : Vector3.t) (c : t) : t :=
  mk (frustum c) p (target c) (projection c).
Definition lookAt (p : Vector3.t) (c : t) : t :=
  mk (frustum c) (position c) p (projection c).
Definition set_left (v : number) (c : t) : t :=
  let f := frustum c in
  mk (mkFrustum v (right f) (top f) (bottom f) (near f) (far f))
     (position c) (target c) (projection c).
Definition set_right (v : number) (c : t) : t :=
  let f := frustum c in
  mk (mkFrustum (left f) v (top f) (bottom f) (near f) (far f))
     (position c) (target c) (projection c).
Definition set_top (v : number) (c : t) : t :=
  let f := frustum c in
  mk (mkFrustum (left f) (right f) v (bottom f) (near f) (far f))
     (position c) (target c) (projection c).
Definition set_bottom (v : number) (c : t) : t :=
  let f := frustum c in
  mk (mkFrustum (left f) (right f) (top f) v (near f) (far f))
     (position c) (target c) (projection c).
Definition updateProjectionMatrix (c : t) : t :=
  mk (frustum c) (position c) (target c) (frustum c).
End OrthographicCamera.

Module WebGLRenderer.
Record t := mk {
  width : number; height : number;
  pixelRatio : number;
  framesRendered : nat
}.
Definition new : t := mk 300 150 1 0.
Definition setPixelRatio (v : number) (r : t) : t :=
  mk (width r) (height r) v (framesRendered r).
Definition setSize (w h : number) (r : t) : t :=
  mk w h (pixelRatio r) (framesRendered r).
Definition render (r : t) : t :=
  mk (width r) (height r) (pixelRatio r) (S (framesRendered r)).
End WebGLRenderer.

Record Ray := mkRay { origin : Vector3.t; direction : Vector3.t }.

(** One entry of the array [Raycaster.intersectObject] returns. *)
Record Intersection := mkIntersection {
  point : Vector3.t;
  uv : option Vector2.t
}.

(** What the script takes from its platform without defining it: the ray
    casting of three.js and the number formatting of JavaScript. *)
Class Platform := {
  (** the ray [Raycaster.setFromCamera(coords, camera)] installs *)
  setFromCamera : Vector2.t -> OrthographicCamera.t -> Ray;
  (** [Raycaster.intersectObject(mesh)], nearest intersection first *)
  intersectObject : Ray -> Mesh.t -> list Intersection;
  (** [Number.prototype.toFixed(digits)] *)
  toFixed : number -> nat -> string;
  (** the string a number becomes inside a template literal *)
  toString : number -> string
}.

(** ** A reference platform

    An executable instance of [Platform], on which the handlers can be run:
    the ray of an orthographic camera that looks down the z axis, its
    intersection with a plane mesh, and decimal formatting of numbers. *)

Module Reference.
#[local] Open Scope string_scope.

Definition string_of_Z (z : Z) : string := NilZero.string_of_int (Z.to_int z).

Fixpoint zeros (n : nat) : string :=
  match n with O => "" | S k => "0" ++ zeros k end.

(** The decimal digits of [n >= 0] with a point before the last [d]. *)
Definition fixed_digits (n : Z) (d : nat) : string :=
  let s := string_of_Z n in
  match d with
  | O => s
  | _ =>
      let s' := zeros (S d - String.length s) ++ s in
      let k := (String.length s' - d)%nat in
      substring 0 k s' ++ "." ++ substring k d s'
  end.

(** [x.toFixed(d)] for a finite [x] below 1e21 in magnitude: the integer
    nearest to [x * 10^d], the larger one on a tie, then the point. *)
Definition toFixed (v : number) (d : nat) : string :=
  match Prim2SF v with
  | S754_nan => "NaN"
  | S754_infinity s => if s then "-Infinity" else "Infinity"
  | S754_zero _ => fixed_digits 0 d
  | S754_finite s m e =>
      let p := (10 ^ Z.of_nat d)%Z in
      let n := if (0 <=? e)%Z
               then (Zpos m * 2 ^ e * p)%Z
               else ((2 * Zpos m * p + 2 ^ (- e)) / (2 * 2 ^ (- e)))%Z in
      (if s then "-" else "") ++ fixed_digits n d
  end.

(** The decimal expansion of a number: exact, hence the string JavaScript
    prints whenever the shortest form that reads back is the exact one
    (integers below 1e21, halves, quarters and so on). *)
Definition toString (v : number) : string :=
  match Prim2SF v with
  | S754_finite _ m e =>
      if (0 <=? e)%Z then toFixed v 0
      else
        let g := Z.gcd (Zpos m) (2 ^ (- e)) in
        toFixed v (Z.to_nat (- e - Z.log2 g))
  | S754_zero _ => "0"
  | _ => toFixed v 0
  end.

(** Orthographic camera, not rotated: the ray starts over the point of
    the frustum that the normalized coordinates select and runs down -z. *)
Definition setFromCamera (c : Vector2.t) (cam : OrthographicCamera.t) : Ray :=
  let f := OrthographicCamera.projection cam in
  let p := OrthographicCamera.position cam in
  let l := OrthographicCamera.left f in
  let r := OrthographicCamera.right f in
  let t := OrthographicCamera.top f in
  let b := OrthographicCamera.bottom f in
  mkRay (Vector3.mk (Vector3.x p + (Vector2.x c * (r - l) + (r + l)) / 2)
                    (Vector3.y p + (Vector2.y c * (t - b) + (t + b)) / 2)
                    (Vector3.z p))
        (Vector3.mk 0 0 (-1)).

(** A plane mesh faces +z around its position; a ray down -z meets it
    inside its rectangle, where [uv] runs from (0,0) at the lower left. *)
Definition intersectObject (r : Ray) (m : Mesh.t) : list Intersection :=
  match Mesh.geometry m with
  | PlaneGeometry w h =>
      let lx := Vector3.x (origin r) - Vector3.x (Mesh.position m) in
      let ly := Vector3.y (origin r) - Vector3.y (Mesh.position m) in
      if ((PrimFloat.abs lx <=? w / 2) && (PrimFloat.abs ly <=? h / 2)
          && (Vector3.z (Mesh.position m) <? Vector3.z (origin r)))%float
      then [ mkIntersection
               (Vector3.mk (Vector3.x (origin r)) (Vector3.y (origin r))
                           (Vector3.z (Mesh.position m)))
               (Some (Vector2.mk (lx / w + 0.5) (ly / h + 0.5))) ]
      else []
  | ShapeGeometry _ => []
  end.

Definition platform : Platform :=
  Build_Platform setFromCamera intersectObject toFixed toString.
End Reference.


(** ** The state of the view *)

Module Raycaster.
Record t := mk { ray : Ray }.
(** [new THREE.Raycaster()]. *)
Definition new : t := mk (mkRay Vector3.zero (Vector3.mk 0 0 (-1))).
End Raycaster.

(** The functions the script registers on [window]. *)
Inductive Listener := ResizeAll.

(** The module-level bindings of the script, then the browser resources it
    acquires.  A binding declared without an initial value ([let x!: T]), and
    a template ref, is [None] until it is assigned. *)
Record State := mkState {
  scene : list Mesh.t;
  containerRef : option HTMLDivElement.t;
  coordLabel : option Label.t;
  overlay : option HTMLCanvasElement.t;
  overlayCtx : option CanvasRenderingContext2D.t;
  camera : option OrthographicCamera.t;
  renderer : option WebGLRenderer.t;
  animationId : option nat;
  raycaster : Raycaster.t;
  pointer : Vector2.t;
  planeMesh : option Mesh.t;
  imgW : number;
  imgH : number;
  points : list Pt;
  (** blob URLs created and not yet revoked, and the next one to hand out *)
  objectURLs : list ObjectURL;
  nextURL : ObjectURL;
  (** URLs a [TextureLoader] is loading, its callback waiting *)
  textureLoads : list ObjectURL;
  (** animation frames requested and not yet run or cancelled *)
  frameRequests : list nat;
  nextFrame : nat;
  (** the listeners of the window's [resize] event *)
  resizeListeners : list Listener
}.

Definition set_scene v (s : State) : State :=
  mkState v (containerRef s) (coordLabel s) (overlay s) (overlayCtx s) (camera s) (renderer s) (animationId s) (raycaster s) (pointer s) (planeMesh s) (imgW s) (imgH s) (points s) (objectURLs s) (nextURL s) (textureLoads s) (frameRequests s) (nextFrame s) (resizeListeners s).
Definition set_containerRef v (s : State) : State :=
  mkState (scene s) v (coordLabel s) (overlay s) (overlayCtx s) (camera s) (renderer s) (animationId s) (raycaster s) (pointer s) (planeMesh s) (imgW s) (imgH s) (points s) (objectURLs s) (nextURL s) (textureLoads s) (frameRequests s) (nextFrame s) (resizeListeners s).
Definition set_coordLabel v (s : State) : State :=
  mkState (scene s) (containerRef s) v (overlay s) (overlayCtx s) (camera s) (renderer s) (animationId s) (raycaster s) (pointer s) (planeMesh s) (imgW s) (imgH s) (points s) (objectURLs s) (nextURL s) (textureLoads s) (frameRequests s) (nextFrame s) (resizeListeners s).
Definition set_overlay v (s : State) : State :=
  mkState (scene s) (containerRef s) (coordLabel s) v (overlayCtx s) (camera s) (renderer s) (animationId s) (raycaster s) (pointer s) (planeMesh s) (imgW s) (imgH s) (points s) (objectURLs s) (nextURL s) (textureLoads s) (frameRequests s) (nextFrame s) (resizeListeners s).
Definition set_overlayCtx v (s : State) : State :=
  mkState (scene s) (containerRef s) (coordLabel s) (overlay s) v (camera s) (renderer s) (animationId s) (raycaster s) (pointer s) (planeMesh s) (imgW s) (imgH s) (points s) (objectURLs s) (nextURL s) (textureLoads s) (frameRequests s) (nextFrame s) (resizeListeners s).
Definition set_camera v (s : State) : State :=
  mkState (scene s) (containerRef s) (coordLabel s) (overlay s) (overlayCtx s) v (renderer s) (animationId s) (raycaster s) (pointer s) (planeMesh s) (imgW s) (imgH s) (points s) (objectURLs s) (nextURL s) (textureLoads s) (frameRequests s) (nextFrame s) (resizeListeners s).
Definition set_renderer v (s : State) : State :=
  mkState (scene s) (containerRef s) (coordLabel s) (overlay s) (overlayCtx s) (camera s) v (animationId s) (raycaster s) (pointer s) (planeMesh s) (imgW s) (imgH s) (points s) (objectURLs s) (nextURL s) (textureLoads s) (frameRequests s) (nextFrame s) (resizeListeners s).
Definition set_animationId v (s : State) : State :=
  mkState (scene s) (containerRef s) (coordLabel s) (overlay s) (overlayCtx s) (camera s) (renderer s) v (raycaster s) (pointer s) (planeMesh s) (imgW s) (imgH s) (points s) (objectURLs s) (nextURL s) (textureLoads s) (frameRequests s) (nextFrame s) (resizeListeners s).
Definition set_raycaster v (s : State) : State :=
  mkState (scene s) (containerRef s) (coordLabel s) (overlay s) (overlayCtx s) (camera s) (renderer s) (animationId s) v (pointer s) (planeMesh s) (imgW s) (imgH s) (points s) (objectURLs s) (nextURL s) (textureLoads s) (frameRequests s) (nextFrame s) (resizeListeners s).
Definition set_pointer v (s : State) : State :=
  mkState (scene s) (containerRef s) (coordLabel s) (overlay s) (overlayCtx s) (camera s) (renderer s) (animationId s) (raycaster s) v (planeMesh s) (imgW s) (imgH s) (points s) (objectURLs s) (nextURL s) (textureLoads s) (frameRequests s) (nextFrame s) (resizeListeners s).
Definition set_planeMesh v (s : State) : State :=
  mkState (scene s) (containerRef s) (coordLabel s) (overlay s) (overlayCtx s) (camera s) (renderer s) (animationId s) (raycaster s) (pointer s) v (imgW s) (imgH s) (points s) (objectURLs s) (nextURL s) (textureLoads s) (frameRequests s) (nextFrame s) (resizeListeners s).
Definition set_imgW v (s : State) : State :=
  mkState (scene s) (containerRef s) (coordLabel s) (overlay s) (overlayCtx s) (camera s) (renderer s) (animationId s) (raycaster s) (pointer s) (planeMesh s) v (imgH s) (points s) (objectURLs s) (nextURL s) (textureLoads s) (frameRequests s) (nextFrame s) (resizeListeners s).
Definition set_imgH v (s : State) : State :=
  mkState (scene s) (containerRef s) (coordLabel s) (overlay s) (overlayCtx s) (camera s) (renderer s) (animationId s) (raycaster s) (pointer s) (planeMesh s) (imgW s) v (points s) (objectURLs s) (nextURL s) (textureLoads s) (frameRequests s) (nextFrame s) (resizeListeners s).
Definition set_points v (s : State) : State :=
  mkState (scene s) (containerRef s) (coordLabel s) (overlay s) (overlayCtx s) (camera s) (renderer s) (animationId s) (raycaster s) (pointer s) (planeMesh s) (imgW s) (imgH s) v (objectURLs s) (nextURL s) (textureLoads s) (frameRequests s) (nextFrame s) (resizeListeners s).
Definition set_objectURLs v (s : State) : State :=
  mkState (scene s) (containerRef s) (coordLabel s) (overlay s) (overlayCtx s) (camera s) (renderer s) (animationId s) (raycaster s) (pointer s) (planeMesh s) (imgW s) (imgH s) (points s) v (nextURL s) (textureLoads s) (frameRequests s) (nextFrame s) (resizeListeners s).
Definition set_nextURL v (s : State) : State :=
  mkState (scene s) (containerRef s) (coordLabel s) (overlay s) (overlayCtx s) (camera s) (renderer s) (animationId s) (raycaster s) (pointer s) (planeMesh s) (imgW s) (imgH s) (points s) (objectURLs s) v (textureLoads s) (frameRequests s) (nextFrame s) (resizeListeners s).
Definition set_textureLoads v (s : State) : State :=
  mkState (scene s) (containerRef s) (coordLabel s) (overlay s) (overlayCtx s) (camera s) (renderer s) (animationId s) (raycaster s) (pointer s) (planeMesh s) (imgW s) (imgH s) (points s) (objectURLs s) (nextURL s) v (frameRequests s) (nextFrame s) (resizeListeners s).
Definition set_frameRequests v (s : State) : State :=
  mkState (scene s) (containerRef s) (coordLabel s) (overlay s) (overlayCtx s) (camera s) (renderer s) (animationId s) (raycaster s) (pointer s) (planeMesh s) (imgW s) (imgH s) (points s) (objectURLs s) (nextURL s) (textureLoads s) v (nextFrame s) (resizeListeners s).
Definition set_nextFrame v (s : State) : State :=
  mkState (scene s) (containerRef s) (coordLabel s) (overlay s) (overlayCtx s) (camera s) (renderer s) (animationId s) (raycaster s) (pointer s) (planeMesh s) (imgW s) (imgH s) (points s) (objectURLs s) (nextURL s) (textureLoads s) (frameRequests s) v (resizeListeners s).
Definition set_resizeListeners v (s : State) : State :=
  mkState (scene s) (containerRef s) (coordLabel s) (overlay s) (overlayCtx s) (camera s) (renderer s) (animationId s) (raycaster s) (pointer s) (planeMesh s) (imgW s) (imgH s) (points s) (objectURLs s) (nextURL s) (textureLoads s) (frameRequests s) (nextFrame s) v.

(** The script as it is when the module has been evaluated and nothing is
    mounted yet. *)
Definition initial : State :=
  mkState [] None None None None None None None
          Raycaster.new (Vector2.mk 0 0) None 0 0 []
          [] O [] [] (S O) [].

(** [const SNAP_DIST = 20]: the snap distance, in world units. *)
Definition SNAP_DIST : number := 20.

(** ** Computations: state and exceptions *)

Inductive JsError := TypeError.

(** A call returns a value or throws; either way it leaves a state behind,
    since what was assigned before a throw stays assigned. *)
Inductive Outcome (A : Type) :=
| Returned (a : A) (s : State)
| Threw (e : JsError) (s : State).
Arguments Returned {A} a s.
Arguments Threw {A} e s.

Definition final {A} (o : Outcome A) : State :=
  match o with Returned _ s => s | Threw _ s => s end.

Definition M (A : Type) : Type := State -> Outcome A.

Definition ret {A} (a : A) : M A := fun s => Returned a s.

Definition bind {A B} (m : M A) (k : A -> M B) : M B :=
  fun s => match m s with
           | Returned a s' => k a s'
           | Threw e s' => Threw e s'
           end.

Definition throw {A} (e : JsError) : M A := fun s => Threw e s.

Definition gets {A} (f : State -> A) : M A := fun s => Returned (f s) s.

Definition modify (f : State -> State) : M unit := fun s => Returned tt (f s).

Declare Scope js_scope.
Delimit Scope js_scope with js.
Notation "x <- m ;; k" := (bind m (fun x => k))
  (at level 100, m at next level, right associativity) : js_scope.
Notation "m ;; k" := (bind m (fun _ => k))
  (at level 100, right associativity) : js_scope.

(** Reading a property of [v]: a [TypeError] when [v] is undefined or null. *)
Definition deref {A} (v : option A) : M A :=
  match v with
  | Some a => ret a
  | None => throw TypeError
  end.

(** [for (let p of l) body]. *)
Fixpoint for_of {A} (l : list A) (body : A -> M unit) : M unit :=
  match l with
  | [] => ret tt
  | a :: l' => bind (body a) (fun _ => for_of l' body)
  end.

(** ** The script *)

Section HomeView.
Context {P : Platform}.
#[local] Open Scope js_scope.
#[local] Open Scope string_scope.

(** *** Calls on the objects the script holds *)

(** [overlayCtx.f(...)] and [overlayCtx.p = v]. *)
Definition ctx_call (c : CanvasCall) : M unit :=
  ctx <- gets overlayCtx ;;
  ctx <- deref ctx ;;
  modify (set_overlayCtx (Some (CanvasRenderingContext2D.call c ctx))).

(** [scene.add(m)]. *)
Definition scene_add (m : Mesh.t) : M unit :=
  modify (fun s => set_scene (scene s ++ [m]) s).

Definition set_pointer_x (v : number) : M unit :=
  modify (fun s => set_pointer (Vector2.mk v (Vector2.y (pointer s))) s).

Definition set_pointer_y (v : number) : M unit :=
  modify (fun s => set_pointer (Vector2.mk (Vector2.x (pointer s)) v) s).

(** [raycaster.setFromCamera(pointer, camera)]: three.js reads the
    camera, which must be there. *)
Definition raycaster_setFromCamera : M unit :=
  p <- gets pointer ;;
  cam <- gets camera ;;
  cam <- deref cam ;;
  modify (set_raycaster (Raycaster.mk (setFromCamera p cam))).

(** [raycaster.intersectObject(planeMesh)]: three.js starts by reading
    [object.layers], so an undefined mesh is a [TypeError]. *)
Definition raycaster_intersectObject_planeMesh : M (list Intersection) :=
  m <- gets planeMesh ;;
  m <- deref m ;;
  rc <- gets raycaster ;;
  ret (intersectObject (Raycaster.ray rc) m).

(** [coordLabel.value.p = v]. *)
Definition coordLabel_update (f : Label.t -> Label.t) : M unit :=
  l <- gets coordLabel ;;
  l <- deref l ;;
  modify (set_coordLabel (Some (f l))).

(** [camera.p = v] and [camera.f()]. *)
Definition camera_update (f : OrthographicCamera.t -> OrthographicCamera.t) : M unit :=
  c <- gets camera ;;
  c <- deref c ;;
  modify (set_camera (Some (f c))).

Definition renderer_update (f : WebGLRenderer.t -> WebGLRenderer.t) : M unit :=
  r <- gets renderer ;;
  r <- deref r ;;
  modify (set_renderer (Some (f r))).

(** [overlay.value!.p = v]. *)
Definition overlay_update (f : HTMLCanvasElement.t -> HTMLCanvasElement.t) : M unit :=
  cv <- gets overlay ;;
  cv <- deref cv ;;
  modify (set_overlay (Some (f cv))).

Definition URL_createObjectURL (f : File) : M ObjectURL :=
  u <- gets nextURL ;;
  modify (fun s => set_nextURL (S u) (set_objectURLs (u :: objectURLs s) s)) ;;
  ret u.

Definition URL_revokeObjectURL (u : ObjectURL) : M unit :=
  modify (fun s => set_objectURLs (remove Nat.eq_dec u (objectURLs s)) s).

Definition requestAnimationFrame : M nat :=
  h <- gets nextFrame ;;
  modify (fun s => set_nextFrame (S h) (set_frameRequests (frameRequests s ++ [h]) s)) ;;
  ret h.

(** [cancelAnimationFrame(id)]; an undefined [id] cancels nothing. *)
Definition cancelAnimationFrame (id : option nat) : M unit :=
  match id with
  | Some h => modify (fun s => set_frameRequests (remove Nat.eq_dec h (frameRequests s)) s)
  | None => ret tt
  end.

Definition Listener_eq_dec (a b : Listener) : {a = b} + {a <> b}.
Proof. decide equality. Defined.

(** A listener already registered is not registered twice. *)
Definition window_addResizeListener (l : Listener) : M unit :=
  modify (fun s =>
    if in_dec Listener_eq_dec l (resizeListeners s) then s
    else set_resizeListeners (resizeListeners s ++ [l]) s).

Definition window_removeResizeListener (l : Listener) : M unit :=
  modify (fun s => set_resizeListeners (remove Listener_eq_dec l (resizeListeners s)) s).

(** *** The functions of the script, in source order *)

Definition onPointerMove (ev : PointerEvent) : M unit :=
  c <- gets containerRef ;;
  l <- gets coordLabel ;;
  match c, l with
  | Some c, Some _ =>
      let r := HTMLDivElement.boundingClientRect c in
      let px := (clientX ev - DOMRect.left r)%float in
      let py := (clientY ev - DOMRect.top r)%float in
      set_pointer_x ((px / DOMRect.width r) * 2 - 1)%float ;;
      set_pointer_y (- (py / DOMRect.height r) * 2 + 1)%float ;;
      raycaster_setFromCamera ;;
      hits <- raycaster_intersectObject_planeMesh ;;
      match hits with
      | [] => coordLabel_update (Label.set_textContent "—")
      | hit :: _ =>
          uv <- deref (uv hit) ;;
          iw <- gets imgW ;;
          ih <- gets imgH ;;
          let ix := (Vector2.x uv * iw)%float in
          let iy := ((1 - Vector2.y uv) * ih)%float in
          coordLabel_update (Label.set_style_left (toString px ++ "px")) ;;
          coordLabel_update (Label.set_style_top (toString (py - 20)%float ++ "px")) ;;
          coordLabel_update
            (Label.set_textContent ("(" ++ toFixed ix 0 ++ ", " ++ toFixed iy 0 ++ ")"))
      end
  | _, _ => ret tt
  end.

Definition drawOverlay : M unit :=
  ctx <- gets overlayCtx ;;
  cv <- gets overlay ;;
  match ctx, cv with
  | Some _, Some cv =>
      let W := HTMLCanvasElement.width cv in
      let H := HTMLCanvasElement.height cv in
      ctx_call (ClearRect 0 0 W H) ;;
      ctx_call (SetStrokeStyle "lime") ;;
      ctx_call (SetLineWidth 2) ;;
      pts <- gets points ;;
      (if (1 <? List.length pts)%nat then
         ctx_call BeginPath ;;
         p0 <- deref (hd_error pts) ;;
         ctx_call (MoveTo (dx p0) (dy p0)) ;;
         for_of (skipn 1 pts) (fun p => ctx_call (LineTo (dx p) (dy p))) ;;
         ctx_call Stroke
       else ret tt) ;;
      ctx_call (SetFillStyle "cyan") ;;
      pts <- gets points ;;
      for_of pts (fun p =>
        ctx_call BeginPath ;;
        ctx_call (Arc (dx p) (dy p) 5 0 (Math_PI * 2)%float) ;;
        ctx_call Fill)
  | _, _ => ret tt
  end.

(** The material of a closed shape: red, both sides, half transparent. *)
Definition shapeMaterial : Material.t :=
  Material.mk None 0xff0000p0 DoubleSide 0.5 true.

Definition createShape : M unit :=
  pts <- gets points ;;
  let shape := mkShape (map (fun p => Vector2.mk (wx p) (wy p)) pts) in
  let geom := ShapeGeometry shape in
  let mat := shapeMaterial in
  scene_add (Mesh.new geom mat) ;;
  ctx <- gets overlayCtx ;;
  _ <- deref ctx ;;
  cv <- gets overlay ;;
  cv <- deref cv ;;
  ctx_call (ClearRect 0 0 (HTMLCanvasElement.width cv) (HTMLCanvasElement.height cv)) ;;
  modify (set_points []).

Definition onPointerDown (ev : PointerEvent) : M unit :=
  c <- gets containerRef ;;
  match c with
  | None => ret tt
  | Some c =>
      let r := HTMLDivElement.boundingClientRect c in
      let dx := (clientX ev - DOMRect.left r)%float in
      let dy := (clientY ev - DOMRect.top r)%float in
      set_pointer_x ((dx / DOMRect.width r) * 2 - 1)%float ;;
      set_pointer_y (- (dy / DOMRect.height r) * 2 + 1)%float ;;
      raycaster_setFromCamera ;;
      hits <- raycaster_intersectObject_planeMesh ;;
      match hits with
      | [] => ret tt
      | h :: _ =>
          let wp := point h in
          let store :=
            modify (fun s =>
              set_points (points s ++ [mkPt dx dy (Vector3.x wp) (Vector3.y wp)]) s) ;;
            drawOverlay in
          pts <- gets points ;;
          if (3 <=? List.length pts)%nat then
            p0 <- deref (hd_error pts) ;;
            let first := Vector2.mk (wx p0) (wy p0) in
            let now := Vector2.mk (Vector3.x wp) (Vector3.y wp) in
            if (Vector2.distanceTo first now <? SNAP_DIST)%float
            then createShape
            else store
          else store
      end
  end.

(** The callback [onFileChange] gives to [TextureLoader.load]: it runs
    when the texture behind [url] has loaded. *)
Definition onTextureLoad (url : ObjectURL) (tex : Texture) : M unit :=
  modify (set_imgW (image_width (image tex))) ;;
  modify (set_imgH (image_height (image tex))) ;;
  iw <- gets imgW ;;
  ih <- gets imgH ;;
  modify (set_planeMesh
            (Some (Mesh.new (PlaneGeometry iw ih) (Material.with_map tex)))) ;;
  m <- gets planeMesh ;;
  m <- deref m ;;
  scene_add m ;;
  URL_revokeObjectURL url.

(** [files] is [e.target.files]; [files?.[0]] is its head. *)
Definition onFileChange (files : list File) : M unit :=
  match hd_error files with
  | None => ret tt
  | Some file =>
      url <- URL_createObjectURL file ;;
      modify (fun s => set_textureLoads (textureLoads s ++ [url]) s)
  end.

Definition resizeAll : M unit :=
  c <- gets containerRef ;;
  match c with
  | None => ret tt
  | Some c =>
      let w := HTMLDivElement.clientWidth c in
      let h := HTMLDivElement.clientHeight c in
      renderer_update (WebGLRenderer.setSize w h) ;;
      camera_update (OrthographicCamera.set_left (- w / 2)%float) ;;
      camera_update (OrthographicCamera.set_right (w / 2)%float) ;;
      camera_update (OrthographicCamera.set_top (h / 2)%float) ;;
      camera_update (OrthographicCamera.set_bottom (- h / 2)%float) ;;
      camera_update OrthographicCamera.updateProjectionMatrix ;;
      overlay_update (fun cv => HTMLCanvasElement.mk w (HTMLCanvasElement.height cv)) ;;
      overlay_update (fun cv => HTMLCanvasElement.mk (HTMLCanvasElement.width cv) h)
  end.

(** The render loop: [loop] asks for the next frame, keeps its handle in
    [animationId] and renders. *)
Definition loop : M unit :=
  h <- requestAnimationFrame ;;
  modify (set_animationId (Some h)) ;;
  cam <- gets camera ;;
  _ <- deref cam ;;
  renderer_update WebGLRenderer.render.

(** The [onMounted] hook; [devicePixelRatio] is the window's. *)
Definition onMounted (devicePixelRatio : number) : M unit :=
  c <- gets containerRef ;;
  c <- deref c ;;
  let w := HTMLDivElement.clientWidth c in
  let h := HTMLDivElement.clientHeight c in
  modify (set_camera
    (Some (OrthographicCamera.new (- w / 2) (w / 2) (h / 2) (- h / 2)
                                  0x1.999999999999ap-4 1000)%float)) ;;
  camera_update (OrthographicCamera.set_position (Vector3.mk 0 0 10)) ;;
  camera_update (OrthographicCamera.lookAt (Vector3.mk 0 0 0)) ;;
  modify (set_renderer (Some WebGLRenderer.new)) ;;
  renderer_update (WebGLRenderer.setPixelRatio devicePixelRatio) ;;
  c <- gets containerRef ;;
  c <- deref c ;;
  modify (set_containerRef (Some (HTMLDivElement.appendRendererCanvas c))) ;;
  cv <- gets overlay ;;
  _ <- deref cv ;;
  modify (set_overlayCtx (Some (CanvasRenderingContext2D.mk []))) ;;
  resizeAll ;;
  window_addResizeListener ResizeAll ;;
  loop.

Definition onUnmounted : M unit :=
  window_removeResizeListener ResizeAll ;;
  id <- gets animationId ;;
  cancelAnimationFrame id.

(** *** The life of the component *)

(** Mounting: the template refs are filled, then the hook runs. *)
Definition mount (c : HTMLDivElement.t) (l : Label.t) (cv : HTMLCanvasElement.t)
           (devicePixelRatio : number) : M unit :=
  modify (set_containerRef (Some c)) ;;
  modify (set_coordLabel (Some l)) ;;
  modify (set_overlay (Some cv)) ;;
  onMounted devicePixelRatio.

(** Unmounting: the template refs are emptied, then the hook runs. *)
Definition unmount : M unit :=
  modify (set_containerRef None) ;;
  modify (set_coordLabel None) ;;
  modify (set_overlay None) ;;
  onUnmounted.

(** What the browser delivers to a mounted view. *)
Inductive Event :=
| PointerMove (ev : PointerEvent)
| PointerDown (ev : PointerEvent)
| Change (files : list File)
| TextureLoaded (url : ObjectURL) (img : Image)
| Resize (c : HTMLDivElement.t)
| AnimationFrame (h : nat).

Definition run_listener (l : Listener) : M unit :=
  match l with ResizeAll => resizeAll end.

Definition dispatch (e : Event) : M unit :=
  match e with
  | PointerMove ev => onPointerMove ev
  | PointerDown ev => onPointerDown ev
  | Change files => onFileChange files
  | TextureLoaded url img =>
      loads <- gets textureLoads ;;
      if in_dec Nat.eq_dec url loads then
        modify (set_textureLoads (remove Nat.eq_dec url loads)) ;;
        onTextureLoad url (mkTexture img url)
      else ret tt
  | Resize c =>
      (* the window has a new size, and so has the container *)
      cur <- gets containerRef ;;
      match cur with
      | Some _ => modify (set_containerRef (Some c))
      | None => ret tt
      end ;;
      ls <- gets resizeListeners ;;
      for_of ls run_listener
  | AnimationFrame h =>
      fs <- gets frameRequests ;;
      if in_dec Nat.eq_dec h fs then
        modify (set_frameRequests (remove Nat.eq_dec h fs)) ;;
        loop
      else ret tt
  end.

(** An exception thrown by a handler ends the handler, not the page. *)
Definition step (e : Event) (s : State) : State := final (dispatch e s).

Definition run (es : list Event) (s : State) : State := fold_left (fun s e => step e s) es s.

End HomeView.

(** ** Notions the properties are stated with *)

(** The normalized device coordinates of a pointer event over the
    container: x and y in [-1, 1], y pointing up. *)
Definition ndc (c : HTMLDivElement.t) (ev : PointerEvent) : Vector2.t :=
  let r := HTMLDivElement.boundingClientRect c in
  let px := clientX ev - DOMRect.left r in
  let py := clientY ev - DOMRect.top r in
  Vector2.mk ((px / DOMRect.width r) * 2 - 1) (- (py / DOMRect.height r) * 2 + 1).

(** The closure rule in words: at least 3 points are stored and the click
    lands less than [SNAP_DIST] away from the first of them. *)
Definition closure_rule (pts : list Pt) (wp : Vector3.t) : bool :=
  (3 <=? List.length pts)%nat &&
  match pts with
  | p0 :: _ =>
      Vector2.distanceTo (Vector2.mk (wx p0) (wy p0))
                         (Vector2.mk (Vector3.x wp) (Vector3.y wp)) <? SNAP_DIST
  | [] => false
  end.

(** The filled polygon over a sequence of stored points. *)
Definition polygon (pts : list Pt) : Mesh.t :=
  Mesh.new (ShapeGeometry (mkShape (map (fun p => Vector2.mk (wx p) (wy p)) pts)))
           shapeMaterial.

(** One stroked polyline through the display coordinates of the points,
    when there is more than one. *)
Definition polyline (pts : list Pt) : list CanvasCall :=
  match pts with
  | p0 :: (_ :: _) as rest =>
      [BeginPath; MoveTo (dx p0) (dy p0)]
        ++ map (fun p => LineTo (dx p) (dy p)) rest ++ [Stroke]
  | _ => []
  end.

(** A filled circle of radius 5 at a point's display coordinates. *)
Definition circle (p : Pt) : list CanvasCall :=
  [BeginPath; Arc (dx p) (dy p) 5 0 (Math_PI * 2); Fill].

(** A run of calls on the overlay context, one after the other. *)
Fixpoint ctx_calls (cs : list CanvasCall) : M unit :=
  match cs with
  | [] => ret tt
  | c :: cs' => bind (ctx_call c) (fun _ => ctx_calls cs')
  end.

(** The state once the pointer and the ray have been set from an event. *)
Definition aimed {P : Platform} (c : HTMLDivElement.t) (cam : OrthographicCamera.t)
           (ev : PointerEvent) (s : State) : State :=
  set_raycaster (Raycaster.mk (setFromCamera (ndc c ev) cam))
                (set_pointer (ndc c ev) s).

(** Storing the clicked point and redrawing: the last two statements of
    [onPointerDown]. *)
Definition store (pt : Pt) : M unit :=
  bind (modify (fun s => set_points (points s ++ [pt]) s)) (fun _ => drawOverlay).

(** The pointer events among the events. *)
Definition is_pointer_event {P : Platform} (e : Event) : bool :=
  match e with
  | PointerMove _ | PointerDown _ => true
  | _ => false
  end.

(** The render loop is armed: the one frame requested is the one whose
    handle [animationId] holds, and [resizeAll] listens to the window. *)
Definition loop_armed (s : State) : Prop :=
  exists h, animationId s = Some h /\ frameRequests s = [h] /\
            resizeListeners s = [ResizeAll].

(** The states a mounted view goes through. *)
Inductive reachable {P : Platform} : State -> Prop :=
| reachable_mount c l cv dpr :
    reachable (final (mount c l cv dpr initial))
| reachable_step e s :
    reachable s -> reachable (step e s).

(** [m] leaves the observation [f] of the state as it found it, whether it
    returns or throws. *)
Definition preserves {A B} (f : State -> B) (m : M A) : Prop :=
  forall s, f (final (m s)) = f s.

(** The view is in place: the template refs are filled and the bindings
    that [onMounted] assigns are assigned. *)
Definition mounted_ok (s : State) : Prop :=
  containerRef s <> None /\ coordLabel s <> None /\ overlay s <> None /\
  overlayCtx s <> None /\ camera s <> None /\ renderer s <> None.

(** [m] keeps the property [I] of the state, whether it returns or throws. *)
Definition invariant {A} (I : State -> Prop) (m : M A) : Prop :=
  forall s, I s -> I (final (m s)).

(** Renderer, camera and overlay have the size of the container. *)
Definition synchronized (s : State) : Prop :=
  exists c r cam cv,
    containerRef s = Some c /\ renderer s = Some r /\
    camera s = Some cam /\ overlay s = Some cv /\
    WebGLRenderer.width r = HTMLDivElement.clientWidth c /\
    WebGLRenderer.height r = HTMLDivElement.clientHeight c /\
    OrthographicCamera.left (OrthographicCamera.frustum cam)
    = - HTMLDivElement.clientWidth c / 2 /\
    OrthographicCamera.right (OrthographicCamera.frustum cam)
    = HTMLDivElement.clientWidth c / 2 /\
    OrthographicCamera.top (OrthographicCamera.frustum cam)
    = HTMLDivElement.clientHeight c / 2 /\
    OrthographicCamera.bottom (OrthographicCamera.frustum cam)
    = - HTMLDivElement.clientHeight c / 2 /\
    OrthographicCamera.projection cam = OrthographicCamera.frustum cam /\
    HTMLCanvasElement.width cv = HTMLDivElement.clientWidth c /\
    HTMLCanvasElement.height cv = HTMLDivElement.clientHeight c.

(** What of the camera no resize touches: where it is, what it looks at,
    and its near and far planes. *)
Definition camera_pose (s : State)
  : option (Vector3.t * Vector3.t * number * number) :=
  option_map (fun c => (OrthographicCamera.position c,
                        OrthographicCamera.target c,
                        OrthographicCamera.near (OrthographicCamera.frustum c),
                        OrthographicCamera.far (OrthographicCamera.frustum c)))
             (camera s).

(** The size the renderer was given. *)
Definition renderer_size (s : State) : option (number * number) :=
  option_map (fun r => (WebGLRenderer.width r, WebGLRenderer.height r)) (renderer s).

(** A mesh of the scene is the textured plane or a closed shape, and a
    closed shape has at least three vertices. *)
Definition closed_shape_ok (m : Mesh.t) : Prop :=
  match Mesh.geometry m with
  | PlaneGeometry _ _ => True
  | ShapeGeometry sh => (3 <= List.length (outline sh))%nat
  end.

(** The plane the pointer is cast against is the plane of the loaded
    image: it has the image's dimensions, sits at the origin and is in the
    scene; before any image has loaded the dimensions are 0. *)
Definition plane_consistent (s : State) : Prop :=
  match planeMesh s with
  | None => imgW s = 0 /\ imgH s = 0
  | Some m =>
      Mesh.geometry m = PlaneGeometry (imgW s) (imgH s) /\
      Mesh.position m = Vector3.zero /\
      In m (scene s)
  end.

(** Everything a pointermove has no business with: all of the state but
    the pointer, the raycaster and the coordinate label. *)
Definition beyond_hover (s : State) :=
  (scene s, containerRef s, overlay s, overlayCtx s, camera s, renderer s,
   animationId s, planeMesh s, imgW s, imgH s, points s,
   objectURLs s, nextURL s, textureLoads s, frameRequests s, nextFrame s,
   resizeListeners s).

(** The calls of one redraw of the overlay, for a canvas and the points
    to show. *)
Definition redraw_calls (cv : HTMLCanvasElement.t) (pts : list Pt) : list CanvasCall :=
  [ClearRect 0 0 (HTMLCanvasElement.width cv) (HTMLCanvasElement.height cv);
   SetStrokeStyle "lime"; SetLineWidth 2]
    ++ polyline pts ++ [SetFillStyle "cyan"] ++ flat_map circle pts.

(** ** A view to run: an 800 x 600 container below a 64 pixel header *)

Module Sample.
Definition container : HTMLDivElement.t :=
  HTMLDivElement.mk (DOMRect.mk 0 64 800 600) 800 600 false.

Definition mounted : State :=
  final (mount container (Label.mk "" "" "") (HTMLCanvasElement.mk 300 150) 1 initial).

(** A 400 x 300 image has been chosen and has loaded. *)
Definition loaded : State :=
  @run Reference.platform
       [Change [mkFile "plan.png"]; TextureLoaded 0%nat (mkImage 400 300)] mounted.

Definition click (x y : number) : Event := PointerDown (mkPointerEvent x y).

(** Three clicks: the centre of the image, 100 to the right, 100 down. *)
Definition three_points : State :=
  @run Reference.platform [click 400 364; click 500 364; click 500 464] loaded.
(** A fourth click, close to the first point: the shape is closed. *)
Definition closed : State :=
  @step Reference.platform (click 410 374) three_points.

(** The window, and the container with it, has grown to 1000 x 500. *)
Definition resized : State :=
  @step Reference.platform
        (Resize (HTMLDivElement.mk (DOMRect.mk 0 64 1000 500) 1000 500 true)) loaded.

(** A file has been chosen on the mounted view and is loading. *)
Definition choosing : State :=
  @step Reference.platform (Change [mkFile "plan.png"]) mounted.

(** The pointer has been moved over pixel (100, 75) of the image. *)
Definition hovered : State :=
  @step Reference.platform (PointerMove (mkPointerEvent 300 289)) loaded.
End Sample.

(** * Properties *)

Section Frames.

Context {A B : Type} (f : State -> B).

Lemma preserves_ret (a : A) : preserves f (ret a).
Proof. intro s; reflexivity. Qed.

Lemma preserves_throw (e : JsError) : preserves f (@throw A e).
Proof. intro s; reflexivity. Qed.

Lemma preserves_gets (g : State -> A) : preserves f (gets g).
Proof. intro s; reflexivity. Qed.

Lemma preserves_deref (v : option A) : preserves f (deref v).
Proof. intro s; destruct v; reflexivity. Qed.

Lemma preserves_modify (g : State -> State) :
  (forall s, f (g s) = f s) -> preserves f (modify g).
Proof. intros H s; apply H. Qed.

End Frames.

Lemma preserves_bind {A B C} (f : State -> C) (m : M A) (k : A -> M B) :
  preserves f m -> (forall a, preserves f (k a)) -> preserves f (bind m k).
Proof.
  intros Hm Hk s. unfold bind.
  specialize (Hm s). destruct (m s) as [a s' | e s']; simpl in *.
  - now rewrite Hk.
  - exact Hm.
Qed.

Lemma preserves_for_of {A C} (f : State -> C) (l : list A) (body : A -> M unit) :
  (forall a, preserves f (body a)) -> preserves f (for_of l body).
Proof.
  intros Hb. induction l as [| a l IH]; simpl.
  - apply preserves_ret.
  - apply preserves_bind; auto.
Qed.

(** Walks through a computation and discharges the frame condition at every
    assignment; what is left are the assignments that do touch [f]. *)
Ltac frame_step :=
  first
    [ apply preserves_ret
    | apply preserves_throw
    | apply preserves_gets
    | apply preserves_deref
    | apply preserves_modify; intro; reflexivity
    | apply preserves_bind; [ | intro ]
    | apply preserves_for_of; intro
    | match goal with
      | |- preserves _ (match ?x with _ => _ end) => destruct x
      end ].

Ltac frame := repeat frame_step.

Section Invariants.

Context {A : Type} (I : State -> Prop).

Lemma invariant_ret (a : A) : invariant I (ret a).
Proof. intros s H; exact H. Qed.

Lemma invariant_throw (e : JsError) : invariant I (@throw A e).
Proof. intros s H; exact H. Qed.

Lemma invariant_gets (g : State -> A) : invariant I (gets g).
Proof. intros s H; exact H. Qed.

Lemma invariant_deref (v : option A) : invariant I (deref v).
Proof. intros s H; destruct v; exact H. Qed.

Lemma invariant_modify (g : State -> State) :
  (forall s, I s -> I (g s)) -> invariant I (modify g).
Proof. intros H s Hs; apply H, Hs. Qed.

End Invariants.

Lemma invariant_bind {A B} (I : State -> Prop) (m : M A) (k : A -> M B) :
  invariant I m -> (forall a, invariant I (k a)) -> invariant I (bind m k).
Proof.
  intros Hm Hk s Hs. unfold bind.
  specialize (Hm s Hs). destruct (m s) as [a s' | e s']; simpl in *.
  - now apply Hk.
  - exact Hm.
Qed.

Lemma invariant_for_of {A} (I : State -> Prop) (l : list A) (body : A -> M unit) :
  (forall a, invariant I (body a)) -> invariant I (for_of l body).
Proof.
  intros Hb. induction l as [| a l IH]; simpl.
  - apply invariant_ret.
  - apply invariant_bind; auto.
Qed.

(** An assignment keeps [mounted_ok] when it leaves the six bindings alone
    or assigns one of them a value. *)
Ltac keeps_mounted :=
  let s := fresh "s" in
  intros s (? & ? & ? & ? & ? & ?);
  repeat split; cbn; first [assumption | discriminate].

Ltac mounted_step :=
  first
    [ apply invariant_ret
    | apply invariant_throw
    | apply invariant_gets
    | apply invariant_deref
    | apply invariant_modify; keeps_mounted
    | apply invariant_bind; [ | intro ]
    | apply invariant_for_of; intro
    | match goal with
      | |- invariant _ (match ?x with _ => _ end) => destruct x
      end ].

Section Properties.
Context {P : Platform}.

(** *** Calls on the overlay context *)

Lemma ctx_call_spec (c : CanvasCall) (s : State) (ctx : CanvasRenderingContext2D.t) :
  overlayCtx s = Some ctx ->
  ctx_call c s =
  Returned tt (set_overlayCtx
                 (Some (CanvasRenderingContext2D.mk
                          (CanvasRenderingContext2D.calls ctx ++ [c]))) s).
Proof.
  intros H. unfold ctx_call, bind, gets, deref. rewrite H. reflexivity.
Qed.

Lemma ctx_calls_spec (cs : list CanvasCall) :
  forall (s : State) (ctx : CanvasRenderingContext2D.t),
    overlayCtx s = Some ctx ->
    ctx_calls cs s =
    Returned tt (set_overlayCtx
                   (Some (CanvasRenderingContext2D.mk
                            (CanvasRenderingContext2D.calls ctx ++ cs))) s).
Proof.
  induction cs as [| c cs IH]; intros s ctx H; simpl.
  - rewrite app_nil_r. unfold ret. destruct s, ctx; simpl in *; subst; reflexivity.
  - unfold bind. rewrite (ctx_call_spec c s ctx H).
    erewrite IH by reflexivity. simpl. rewrite <- app_assoc. reflexivity.
Qed.

Lemma for_of_ctx_calls {A} (g : A -> list CanvasCall) (body : A -> M unit) (l : list A) :
  (forall a s, body a s = ctx_calls (g a) s) ->
  forall s, for_of l body s = ctx_calls (flat_map g l) s.
Proof.
  intros Hb. induction l as [| a l IH]; intros s; simpl.
  - reflexivity.
  - unfold bind at 1. rewrite Hb.
    revert s. induction (g a) as [| c cs IHc]; intros s; simpl.
    + apply IH.
    + unfold bind. destruct (ctx_call c s); auto.
Qed.


Lemma bind_ctx_call {B} (c : CanvasCall) (k : unit -> M B) (s : State)
      (ctx : CanvasRenderingContext2D.t) :
  overlayCtx s = Some ctx ->
  bind (ctx_call c) k s =
  k tt (set_overlayCtx (Some (CanvasRenderingContext2D.call c ctx)) s).
Proof.
  intros H. unfold bind at 1. rewrite (ctx_call_spec c s ctx H). reflexivity.
Qed.

Lemma flat_map_singleton {A B} (g : A -> B) (l : list A) :
  flat_map (fun a => [g a]) l = map g l.
Proof. induction l as [| a l IH]; simpl; congruence. Qed.

Lemma for_of_lineTo (l : list Pt) (s : State) (ctx : CanvasRenderingContext2D.t) :
  overlayCtx s = Some ctx ->
  for_of l (fun p => ctx_call (LineTo (dx p) (dy p))) s =
  Returned tt (set_overlayCtx
                 (Some (CanvasRenderingContext2D.mk
                          (CanvasRenderingContext2D.calls ctx
                             ++ map (fun p => LineTo (dx p) (dy p)) l))) s).
Proof.
  intros H.
  rewrite (for_of_ctx_calls (fun p => [LineTo (dx p) (dy p)])).
  - rewrite (ctx_calls_spec _ s ctx H).
    now rewrite flat_map_singleton.
  - intros a s0. simpl. unfold bind. destruct (ctx_call _ s0) as [[] ?|]; reflexivity.
Qed.


(** *** Running a computation one statement at a time *)

Lemma bind_ret {A B} (a : A) (k : A -> M B) (s : State) :
  bind (ret a) k s = k a s.
Proof. reflexivity. Qed.

Lemma bind_gets {A B} (g : State -> A) (k : A -> M B) (s : State) :
  bind (gets g) k s = k (g s) s.
Proof. reflexivity. Qed.

Lemma bind_modify {B} (g : State -> State) (k : unit -> M B) (s : State) :
  bind (modify g) k s = k tt (g s).
Proof. reflexivity. Qed.

Lemma bind_deref_Some {A B} (a : A) (k : A -> M B) (s : State) :
  bind (deref (Some a)) k s = k a s.
Proof. reflexivity. Qed.

Lemma bind_deref_None {A B} (k : A -> M B) (s : State) :
  bind (deref None) k s = Threw TypeError s.
Proof. reflexivity. Qed.

Lemma bind_bind {A B C} (m : M A) (k : A -> M B) (k' : B -> M C) (s : State) :
  bind (bind m k) k' s = bind m (fun a => bind (k a) k') s.
Proof. unfold bind. destruct (m s); reflexivity. Qed.

Lemma set_overlayCtx_twice (a b : option CanvasRenderingContext2D.t) (s : State) :
  set_overlayCtx a (set_overlayCtx b s) = set_overlayCtx a s.
Proof. reflexivity. Qed.

(** C7. A redraw of the overlay clears the whole canvas, then strokes one
    polyline through the display coordinates of the stored points when
    there is more than one, then fills a circle of radius 5 at the
    display coordinates of every stored point, in that order. *)
Theorem drawOverlay_redraw (s : State) (ctx : CanvasRenderingContext2D.t)
        (cv : HTMLCanvasElement.t) :
  overlayCtx s = Some ctx ->
  overlay s = Some cv ->
  drawOverlay s =
  Returned tt
    (set_overlayCtx
       (Some (CanvasRenderingContext2D.mk
                (CanvasRenderingContext2D.calls ctx
                   ++ [ClearRect 0 0 (HTMLCanvasElement.width cv)
                                     (HTMLCanvasElement.height cv);
                       SetStrokeStyle "lime"; SetLineWidth 2]
                   ++ polyline (points s)
                   ++ [SetFillStyle "cyan"]
                   ++ flat_map circle (points s)))) s).
Proof.
  intros Hctx Hcv. unfold drawOverlay.
  rewrite !bind_gets, Hctx, Hcv.
  do 3 (erewrite bind_ctx_call by (first [exact Hctx | reflexivity])).
  rewrite !set_overlayCtx_twice, bind_gets.
  change (points (set_overlayCtx ?o s)) with (points s).
  assert (Hcircles : forall s0 ctx0, overlayCtx s0 = Some ctx0 ->
    for_of (points s)
      (fun p => bind (ctx_call BeginPath) (fun _ =>
                bind (ctx_call (Arc (dx p) (dy p) 5 0 (Math_PI * 2))) (fun _ =>
                ctx_call Fill))) s0
    = Returned tt (set_overlayCtx
         (Some (CanvasRenderingContext2D.mk
                  (CanvasRenderingContext2D.calls ctx0 ++ flat_map circle (points s)))) s0)).
  { intros s0 ctx0 H0. rewrite (for_of_ctx_calls circle).
    - apply ctx_calls_spec, H0.
    - intros a s1. simpl. unfold bind.
      destruct (ctx_call BeginPath s1) as [[] s2|]; [|reflexivity].
      destruct (ctx_call _ s2) as [[] s3|]; [|reflexivity].
      destruct (ctx_call Fill s3) as [[] s4|]; reflexivity. }
  destruct (points s) as [| p0 [| p1 rest]] eqn:Hpts; cbn [List.length Nat.ltb Nat.leb polyline].
  - rewrite bind_ret.
    erewrite bind_ctx_call by reflexivity. rewrite set_overlayCtx_twice, bind_gets.
    change (points (set_overlayCtx ?o s)) with (points s). rewrite Hpts.
    erewrite Hcircles by reflexivity. rewrite set_overlayCtx_twice.
    unfold CanvasRenderingContext2D.call; cbn [CanvasRenderingContext2D.calls].
    rewrite <- !app_assoc. reflexivity.
  - rewrite bind_ret.
    erewrite bind_ctx_call by reflexivity. rewrite set_overlayCtx_twice, bind_gets.
    change (points (set_overlayCtx ?o s)) with (points s). rewrite Hpts.
    erewrite Hcircles by reflexivity. rewrite set_overlayCtx_twice.
    unfold CanvasRenderingContext2D.call; cbn [CanvasRenderingContext2D.calls].
    rewrite <- !app_assoc. reflexivity.
  - rewrite bind_bind. erewrite bind_ctx_call by reflexivity.
    rewrite set_overlayCtx_twice, bind_bind. cbn [hd_error]. rewrite bind_deref_Some.
    rewrite bind_bind. erewrite bind_ctx_call by reflexivity.
    rewrite set_overlayCtx_twice, bind_bind. cbn [skipn].
    unfold bind at 1. erewrite for_of_lineTo by reflexivity.
    rewrite set_overlayCtx_twice.
    erewrite bind_ctx_call by reflexivity. rewrite set_overlayCtx_twice.
    erewrite bind_ctx_call by reflexivity. rewrite set_overlayCtx_twice, bind_gets.
    change (points (set_overlayCtx ?o s)) with (points s). rewrite Hpts.
    erewrite Hcircles by reflexivity. rewrite set_overlayCtx_twice.
    unfold CanvasRenderingContext2D.call; cbn [CanvasRenderingContext2D.calls].
    rewrite <- !app_assoc. reflexivity.
Qed.

(** *** Closing a shape *)

Lemma createShape_spec (s : State) (ctx : CanvasRenderingContext2D.t)
      (cv : HTMLCanvasElement.t) :
  overlayCtx s = Some ctx ->
  overlay s = Some cv ->
  createShape s =
  Returned tt
    (set_points []
       (set_overlayCtx
          (Some (CanvasRenderingContext2D.call
                   (ClearRect 0 0 (HTMLCanvasElement.width cv)
                                  (HTMLCanvasElement.height cv)) ctx))
          (set_scene (scene s ++ [polygon (points s)]) s))).
Proof.
  intros Hctx Hcv. unfold createShape, scene_add.
  rewrite bind_gets, bind_modify, bind_gets.
  cbn [overlayCtx set_scene]. rewrite Hctx, bind_deref_Some, bind_gets.
  cbn [overlay set_scene]. rewrite Hcv, bind_deref_Some.
  erewrite bind_ctx_call by (cbn; exact Hctx).
  reflexivity.
Qed.

Lemma createShape_returns (s s' : State) :
  createShape s = Returned tt s' ->
  exists ctx cv, overlayCtx s = Some ctx /\ overlay s = Some cv.
Proof.
  unfold createShape, scene_add.
  rewrite bind_gets, bind_modify, bind_gets. cbn [overlayCtx set_scene].
  destruct (overlayCtx s) as [ctx |] eqn:Hctx.
  - rewrite bind_deref_Some, bind_gets. cbn [overlay set_scene].
    destruct (overlay s) as [cv |] eqn:Hcv.
    + intros _. now exists ctx, cv.
    + rewrite bind_deref_None. discriminate.
  - rewrite bind_deref_None. discriminate.
Qed.

Lemma createShape_scene (s : State) :
  scene (final (createShape s)) = scene s ++ [polygon (points s)].
Proof.
  destruct (overlayCtx s) as [ctx |] eqn:Hctx; [destruct (overlay s) as [cv |] eqn:Hcv |].
  - rewrite (createShape_spec s ctx cv Hctx Hcv). reflexivity.
  - unfold createShape, scene_add.
    rewrite bind_gets, bind_modify, bind_gets. cbn [overlayCtx set_scene].
    rewrite Hctx, bind_deref_Some, bind_gets. cbn [overlay set_scene].
    rewrite Hcv, bind_deref_None. reflexivity.
  - unfold createShape, scene_add.
    rewrite bind_gets, bind_modify, bind_gets. cbn [overlayCtx set_scene].
    rewrite Hctx, bind_deref_None. reflexivity.
Qed.


(** C10. When [createShape] returns, no point is stored any more and the
    last call on the overlay clears all of it, while the image
    dimensions, the plane mesh and every mesh that was in the scene are
    what and where they were. *)
Theorem createShape_resets (s s' : State) :
  createShape s = Returned tt s' ->
  points s' = [] /\
  (exists ctx cv,
      overlayCtx s = Some ctx /\ overlay s' = Some cv /\
      overlayCtx s' =
      Some (CanvasRenderingContext2D.mk
              (CanvasRenderingContext2D.calls ctx
                 ++ [ClearRect 0 0 (HTMLCanvasElement.width cv)
                                   (HTMLCanvasElement.height cv)]))) /\
  imgW s' = imgW s /\ imgH s' = imgH s /\
  planeMesh s' = planeMesh s /\
  (forall i m, nth_error (scene s) i = Some m -> nth_error (scene s') i = Some m).
Proof.
  intros H. destruct (createShape_returns s s' H) as (ctx & cv & Hctx & Hcv).
  rewrite (createShape_spec s ctx cv Hctx Hcv) in H.
  injection H as <-. cbn.
  split; [reflexivity |]. split.
  - exists ctx, cv. now rewrite Hcv.
  - repeat split; try reflexivity.
    intros i m Hi. rewrite nth_error_app1; [exact Hi |].
    apply nth_error_Some. congruence.
Qed.

(** *** Resizing *)

Lemma resizeAll_spec (s : State) (c : HTMLDivElement.t) (r : WebGLRenderer.t)
      (cam : OrthographicCamera.t) (cv : HTMLCanvasElement.t) :
  containerRef s = Some c ->
  renderer s = Some r ->
  camera s = Some cam ->
  overlay s = Some cv ->
  let w := HTMLDivElement.clientWidth c in
  let h := HTMLDivElement.clientHeight c in
  let fr := OrthographicCamera.mkFrustum
              (- w / 2) (w / 2) (h / 2) (- h / 2)
              (OrthographicCamera.near (OrthographicCamera.frustum cam))
              (OrthographicCamera.far (OrthographicCamera.frustum cam)) in
  resizeAll s =
  Returned tt
    (set_overlay (Some (HTMLCanvasElement.mk w h))
       (set_camera
          (Some (OrthographicCamera.mk fr (OrthographicCamera.position cam)
                                       (OrthographicCamera.target cam) fr))
          (set_renderer (Some (WebGLRenderer.setSize w h r)) s))).
Proof.
  intros Hc Hr Hcam Hcv w h fr.
  unfold resizeAll, renderer_update, camera_update, overlay_update.
  rewrite bind_gets, Hc.
  rewrite bind_bind, bind_gets, Hr, bind_bind, bind_deref_Some, bind_modify.
  do 5 (rewrite bind_bind, bind_gets; cbn [camera set_renderer set_camera];
        rewrite ?Hcam, bind_bind, bind_deref_Some, bind_modify).
  rewrite bind_bind, bind_gets. cbn [overlay set_renderer set_camera].
  rewrite Hcv, bind_bind, bind_deref_Some, bind_modify.
  rewrite bind_gets. cbn [overlay set_overlay].
  rewrite bind_deref_Some.
  reflexivity.
Qed.

(** C4. After [resizeAll], with [(w, h)] the client size of the
    container: the renderer's size is [(w, h)]; the camera's frustum has
    [left = -w/2], [right = w/2], [top = h/2], [bottom = -h/2] and its
    projection matrix has been recomputed from them; the overlay canvas is
    [w] wide and [h] high. *)
Theorem resizeAll_synchronizes (s : State) (c : HTMLDivElement.t)
        (r : WebGLRenderer.t) (cam : OrthographicCamera.t)
        (cv : HTMLCanvasElement.t) :
  containerRef s = Some c ->
  renderer s = Some r ->
  camera s = Some cam ->
  overlay s = Some cv ->
  let w := HTMLDivElement.clientWidth c in
  let h := HTMLDivElement.clientHeight c in
  exists s' r' cam' cv',
    resizeAll s = Returned tt s' /\
    renderer s' = Some r' /\
    WebGLRenderer.width r' = w /\ WebGLRenderer.height r' = h /\
    camera s' = Some cam' /\
    OrthographicCamera.left (OrthographicCamera.frustum cam') = - w / 2 /\
    OrthographicCamera.right (OrthographicCamera.frustum cam') = w / 2 /\
    OrthographicCamera.top (OrthographicCamera.frustum cam') = h / 2 /\
    OrthographicCamera.bottom (OrthographicCamera.frustum cam') = - h / 2 /\
    OrthographicCamera.projection cam' = OrthographicCamera.frustum cam' /\
    overlay s' = Some cv' /\
    HTMLCanvasElement.width cv' = w /\ HTMLCanvasElement.height cv' = h.
Proof.
  intros Hc Hr Hcam Hcv w h.
  do 4 eexists. split; [apply (resizeAll_spec s c r cam cv Hc Hr Hcam Hcv) |].
  cbn. repeat split; reflexivity.
Qed.

(** *** Pointer events *)

Lemma onPointerDown_aimed (s : State) (ev : PointerEvent) (c : HTMLDivElement.t)
      (cam : OrthographicCamera.t) (m : Mesh.t) :
  containerRef s = Some c ->
  camera s = Some cam ->
  planeMesh s = Some m ->
  let r := HTMLDivElement.boundingClientRect c in
  onPointerDown ev s =
  match intersectObject (setFromCamera (ndc c ev) cam) m with
  | [] => Returned tt (aimed c cam ev s)
  | hit :: _ =>
      let pt := mkPt (clientX ev - DOMRect.left r) (clientY ev - DOMRect.top r)
                     (Vector3.x (point hit)) (Vector3.y (point hit)) in
      if closure_rule (points s) (point hit)
      then createShape (aimed c cam ev s)
      else store pt (aimed c cam ev s)
  end.
Proof.
  intros Hc Hcam Hm r.
  unfold onPointerDown, set_pointer_x, set_pointer_y, raycaster_setFromCamera,
    raycaster_intersectObject_planeMesh.
  rewrite bind_gets, Hc, !bind_modify.
  rewrite bind_bind, bind_gets, bind_bind, bind_gets.
  cbn [camera set_pointer pointer Vector2.x Vector2.y].
  rewrite Hcam, bind_bind, bind_deref_Some, bind_modify.
  rewrite bind_bind, bind_gets. cbn [planeMesh set_pointer set_raycaster].
  rewrite Hm, bind_bind, bind_deref_Some, bind_bind, bind_gets, bind_ret.
  cbn [raycaster set_raycaster Raycaster.ray].
  match goal with
  | |- context [setFromCamera ?v cam] => change v with (ndc c ev)
  end.
  repeat match goal with
  | |- context [set_raycaster ?rc (set_pointer ?a (set_pointer ?b s))] =>
      change (set_raycaster rc (set_pointer a (set_pointer b s)))
        with (aimed c cam ev s)
  end.
  destruct (intersectObject (setFromCamera (ndc c ev) cam) m) as [| hit rest];
    [reflexivity |].
  rewrite bind_gets. change (points (aimed c cam ev s)) with (points s).
  unfold closure_rule.
  destruct (3 <=? List.length (points s))%nat eqn:Hlen; cbn [andb]; [| reflexivity].
  destruct (points s) as [| p0 tl]; [discriminate |].
  cbn [hd_error]. rewrite bind_deref_Some.
  destruct (Vector2.distanceTo _ _ <? SNAP_DIST)%float; reflexivity.
Qed.

(** C8. A pointerdown whose ray misses the plane mesh returns at once:
    the stored points, the scene and the overlay (its size and the calls
    made on its context) are what they were; only the pointer and the ray
    of the raycaster have been set. *)
Theorem onPointerDown_miss (s : State) (ev : PointerEvent) (c : HTMLDivElement.t)
        (cam : OrthographicCamera.t) (m : Mesh.t) :
  containerRef s = Some c ->
  camera s = Some cam ->
  planeMesh s = Some m ->
  intersectObject (setFromCamera (ndc c ev) cam) m = [] ->
  exists s',
    onPointerDown ev s = Returned tt s' /\
    s' = aimed c cam ev s /\
    points s' = points s /\
    scene s' = scene s /\
    overlayCtx s' = overlayCtx s /\
    overlay s' = overlay s.
Proof.
  intros Hc Hcam Hm Hmiss.
  exists (aimed c cam ev s).
  rewrite (onPointerDown_aimed s ev c cam m Hc Hcam Hm), Hmiss.
  repeat split; reflexivity.
Qed.

(** What a redraw does to the state, with the calls as one list. *)
Lemma drawOverlay_spec (s : State) (ctx : CanvasRenderingContext2D.t)
      (cv : HTMLCanvasElement.t) :
  overlayCtx s = Some ctx ->
  overlay s = Some cv ->
  drawOverlay s =
  Returned tt
    (set_overlayCtx
       (Some (CanvasRenderingContext2D.mk
                (CanvasRenderingContext2D.calls ctx ++ redraw_calls cv (points s)))) s).
Proof.
  intros Hctx Hcv. unfold redraw_calls, drawOverlay.
  rewrite !bind_gets, Hctx, Hcv.
  do 3 (erewrite bind_ctx_call by (first [exact Hctx | reflexivity])).
  rewrite !set_overlayCtx_twice, bind_gets.
  change (points (set_overlayCtx ?o s)) with (points s).
  assert (Hcircles : forall s0 ctx0, overlayCtx s0 = Some ctx0 ->
    for_of (points s)
      (fun p => bind (ctx_call BeginPath) (fun _ =>
                bind (ctx_call (Arc (dx p) (dy p) 5 0 (Math_PI * 2))) (fun _ =>
                ctx_call Fill))) s0
    = Returned tt (set_overlayCtx
         (Some (CanvasRenderingContext2D.mk
                  (CanvasRenderingContext2D.calls ctx0 ++ flat_map circle (points s)))) s0)).
  { intros s0 ctx0 H0. rewrite (for_of_ctx_calls circle).
    - apply ctx_calls_spec, H0.
    - intros a s1. simpl. unfold bind.
      destruct (ctx_call BeginPath s1) as [[] s2|]; [|reflexivity].
      destruct (ctx_call _ s2) as [[] s3|]; [|reflexivity].
      destruct (ctx_call Fill s3) as [[] s4|]; reflexivity. }
  destruct (points s) as [| p0 [| p1 rest]] eqn:Hpts; cbn [List.length Nat.ltb Nat.leb polyline].
  - rewrite bind_ret.
    erewrite bind_ctx_call by reflexivity. rewrite set_overlayCtx_twice, bind_gets.
    change (points (set_overlayCtx ?o s)) with (points s). rewrite Hpts.
    erewrite Hcircles by reflexivity. rewrite set_overlayCtx_twice.
    unfold CanvasRenderingContext2D.call; cbn [CanvasRenderingContext2D.calls].
    rewrite <- !app_assoc. reflexivity.
  - rewrite bind_ret.
    erewrite bind_ctx_call by reflexivity. rewrite set_overlayCtx_twice, bind_gets.
    change (points (set_overlayCtx ?o s)) with (points s). rewrite Hpts.
    erewrite Hcircles by reflexivity. rewrite set_overlayCtx_twice.
    unfold CanvasRenderingContext2D.call; cbn [CanvasRenderingContext2D.calls].
    rewrite <- !app_assoc. reflexivity.
  - rewrite bind_bind. erewrite bind_ctx_call by reflexivity.
    rewrite set_overlayCtx_twice, bind_bind. cbn [hd_error]. rewrite bind_deref_Some.
    rewrite bind_bind. erewrite bind_ctx_call by reflexivity.
    rewrite set_overlayCtx_twice, bind_bind. cbn [skipn].
    unfold bind at 1. erewrite for_of_lineTo by reflexivity.
    rewrite set_overlayCtx_twice.
    erewrite bind_ctx_call by reflexivity. rewrite set_overlayCtx_twice.
    erewrite bind_ctx_call by reflexivity. rewrite set_overlayCtx_twice, bind_gets.
    change (points (set_overlayCtx ?o s)) with (points s). rewrite Hpts.
    erewrite Hcircles by reflexivity. rewrite set_overlayCtx_twice.
    unfold CanvasRenderingContext2D.call; cbn [CanvasRenderingContext2D.calls].
    rewrite <- !app_assoc. reflexivity.
Qed.

Lemma store_spec (pt : Pt) (s : State) (ctx : CanvasRenderingContext2D.t)
      (cv : HTMLCanvasElement.t) :
  overlayCtx s = Some ctx ->
  overlay s = Some cv ->
  exists ctx',
    store pt s =
    Returned tt (set_overlayCtx (Some ctx') (set_points (points s ++ [pt]) s)).
Proof.
  intros Hctx Hcv. unfold store. rewrite bind_modify.
  erewrite drawOverlay_spec by (cbn; eassumption).
  eexists. reflexivity.
Qed.

(** C1. A pointerdown whose ray hits the plane closes the shape exactly
    when at least 3 points are stored and the hit point is less than
    [SNAP_DIST] = 20 away from the first stored point: then the polygon of
    the stored points joins the scene and no point is appended (none is
    left); in every other case the scene is as it was and the point, with
    its display and world coordinates, is appended to the stored points. *)
Theorem onPointerDown_closure_rule (s : State) (ev : PointerEvent)
        (c : HTMLDivElement.t) (cam : OrthographicCamera.t) (m : Mesh.t)
        (ctx : CanvasRenderingContext2D.t) (cv : HTMLCanvasElement.t)
        (hit : Intersection) (rest : list Intersection) :
  containerRef s = Some c ->
  camera s = Some cam ->
  planeMesh s = Some m ->
  overlayCtx s = Some ctx ->
  overlay s = Some cv ->
  intersectObject (setFromCamera (ndc c ev) cam) m = hit :: rest ->
  let r := HTMLDivElement.boundingClientRect c in
  let pt := mkPt (clientX ev - DOMRect.left r) (clientY ev - DOMRect.top r)
                 (Vector3.x (point hit)) (Vector3.y (point hit)) in
  SNAP_DIST = 20 /\
  exists s',
    onPointerDown ev s = Returned tt s' /\
    (closure_rule (points s) (point hit) = true ->
     scene s' = scene s ++ [polygon (points s)] /\ points s' = []) /\
    (closure_rule (points s) (point hit) = false ->
     scene s' = scene s /\ points s' = points s ++ [pt]).
Proof.
  intros Hc Hcam Hm Hctx Hcv Hhit r pt. split; [reflexivity |].
  rewrite (onPointerDown_aimed s ev c cam m Hc Hcam Hm), Hhit. cbv zeta.
  destruct (closure_rule (points s) (point hit)).
  - erewrite createShape_spec by (cbn; eassumption).
    eexists. split; [reflexivity |]. split; [| discriminate].
    intros _. split; reflexivity.
  - destruct (store_spec pt (aimed c cam ev s) ctx cv Hctx Hcv) as [ctx' Hst].
    fold r. fold pt. rewrite Hst.
    eexists. split; [reflexivity |]. split; [discriminate |].
    intros _. split; reflexivity.
Qed.

(** Unfolds the functions of the script down to the monad's operations. *)
Ltac script :=
  unfold onPointerMove, onPointerDown, store, createShape, drawOverlay,
    onTextureLoad, onFileChange, resizeAll, loop, onUnmounted,
    set_pointer_x, set_pointer_y, raycaster_setFromCamera,
    raycaster_intersectObject_planeMesh, coordLabel_update, camera_update,
    renderer_update, overlay_update, scene_add, ctx_call,
    URL_createObjectURL, URL_revokeObjectURL, requestAnimationFrame,
    cancelAnimationFrame, window_addResizeListener, window_removeResizeListener,
    run_listener;
  cbv zeta.

(** What a pointer event aims with: the pointer and the raycaster. *)
Lemma createShape_keeps_aim :
  preserves (fun s => (pointer s, raycaster s)) createShape.
Proof. script. frame. Qed.

Lemma store_keeps_aim (pt : Pt) :
  preserves (fun s => (pointer s, raycaster s)) (store pt).
Proof. script. frame. Qed.

Lemma onPointerDown_aim (s : State) (ev : PointerEvent) (c : HTMLDivElement.t)
      (cam : OrthographicCamera.t) (m : Mesh.t) :
  containerRef s = Some c ->
  camera s = Some cam ->
  planeMesh s = Some m ->
  pointer (final (onPointerDown ev s)) = ndc c ev /\
  raycaster (final (onPointerDown ev s)) = Raycaster.mk (setFromCamera (ndc c ev) cam).
Proof.
  intros Hc Hcam Hm.
  rewrite (onPointerDown_aimed s ev c cam m Hc Hcam Hm). cbv zeta.
  assert (Haim : forall mm : M unit,
             preserves (fun s => (pointer s, raycaster s)) mm ->
             pointer (final (mm (aimed c cam ev s))) = ndc c ev /\
             raycaster (final (mm (aimed c cam ev s)))
             = Raycaster.mk (setFromCamera (ndc c ev) cam)).
  { intros mm Hmm. specialize (Hmm (aimed c cam ev s)).
    injection Hmm as -> ->. split; reflexivity. }
  destruct (intersectObject _ m) as [| hit rest]; [split; reflexivity |].
  destruct (closure_rule _ _).
  - apply Haim, createShape_keeps_aim.
  - apply Haim, store_keeps_aim.
Qed.

Lemma onPointerMove_aimed (s : State) (ev : PointerEvent) (c : HTMLDivElement.t)
      (l : Label.t) (cam : OrthographicCamera.t) (m : Mesh.t) :
  containerRef s = Some c ->
  coordLabel s = Some l ->
  camera s = Some cam ->
  planeMesh s = Some m ->
  let r := HTMLDivElement.boundingClientRect c in
  let px := clientX ev - DOMRect.left r in
  let py := clientY ev - DOMRect.top r in
  onPointerMove ev s =
  match intersectObject (setFromCamera (ndc c ev) cam) m with
  | [] =>
      Returned tt (set_coordLabel (Some (Label.set_textContent "—" l))
                                  (aimed c cam ev s))
  | hit :: _ =>
      match uv hit with
      | None => Threw TypeError (aimed c cam ev s)
      | Some uv =>
          let ix := Vector2.x uv * imgW s in
          let iy := (1 - Vector2.y uv) * imgH s in
          Returned tt
            (set_coordLabel
               (Some (Label.mk ("(" ++ toFixed ix 0 ++ ", " ++ toFixed iy 0 ++ ")")
                               (toString px ++ "px")
                               (toString (py - 20) ++ "px")))
               (aimed c cam ev s))
      end
  end.
Proof.
  intros Hc Hl Hcam Hm r px py.
  unfold onPointerMove, set_pointer_x, set_pointer_y, raycaster_setFromCamera,
    raycaster_intersectObject_planeMesh, coordLabel_update.
  rewrite !bind_gets, Hc, Hl, !bind_modify.
  rewrite bind_bind, bind_gets, bind_bind, bind_gets.
  cbn [camera set_pointer pointer Vector2.x Vector2.y].
  rewrite Hcam, bind_bind, bind_deref_Some, bind_modify.
  rewrite bind_bind, bind_gets. cbn [planeMesh set_pointer set_raycaster].
  rewrite Hm, bind_bind, bind_deref_Some, bind_bind, bind_gets, bind_ret.
  cbn [raycaster set_raycaster Raycaster.ray].
  match goal with
  | |- context [setFromCamera ?v cam] => change v with (ndc c ev)
  end.
  repeat match goal with
  | |- context [set_raycaster ?rc (set_pointer ?a (set_pointer ?b s))] =>
      change (set_raycaster rc (set_pointer a (set_pointer b s)))
        with (aimed c cam ev s)
  end.
  destruct (intersectObject (setFromCamera (ndc c ev) cam) m) as [| hit rest].
  - rewrite bind_gets. change (coordLabel (aimed c cam ev s)) with (coordLabel s).
    rewrite Hl. reflexivity.
  - destruct (uv hit) as [uv0 |]; [| reflexivity].
    rewrite bind_deref_Some, !bind_gets.
    rewrite bind_bind, bind_gets.
    change (coordLabel (aimed c cam ev s)) with (coordLabel s).
    rewrite Hl, bind_bind, bind_deref_Some, bind_modify.
    rewrite bind_bind, bind_gets. cbn [coordLabel set_coordLabel].
    rewrite bind_bind, bind_deref_Some, bind_modify.
    rewrite bind_gets. cbn [coordLabel set_coordLabel].
    reflexivity.
Qed.

(** C2. A pointer event at [(px, py)] relative to the container's
    rectangle, [w] wide and [h] high, sets the pointer to the normalized
    device coordinates [((px/w)*2 - 1, -(py/h)*2 + 1)] and casts the ray
    of the camera through them against the plane mesh, on pointermove and
    on pointerdown alike; when the ray of a pointermove hits at texture
    coordinates [uv], the label shows
    [(uv.x * imgW, (1 - uv.y) * imgH)], each printed with no decimals. *)
Theorem pointer_to_texture_coordinates (s : State) (ev : PointerEvent)
        (c : HTMLDivElement.t) (l : Label.t) (cam : OrthographicCamera.t)
        (m : Mesh.t) :
  containerRef s = Some c ->
  coordLabel s = Some l ->
  camera s = Some cam ->
  planeMesh s = Some m ->
  let r := HTMLDivElement.boundingClientRect c in
  let px := clientX ev - DOMRect.left r in
  let py := clientY ev - DOMRect.top r in
  let w := DOMRect.width r in
  let h := DOMRect.height r in
  let n := Vector2.mk ((px / w) * 2 - 1) (- (py / h) * 2 + 1) in
  let moved := final (onPointerMove ev s) in
  let pressed := final (onPointerDown ev s) in
  pointer moved = n /\
  raycaster moved = Raycaster.mk (setFromCamera n cam) /\
  pointer pressed = n /\
  raycaster pressed = Raycaster.mk (setFromCamera n cam) /\
  forall hit rest uv0,
    intersectObject (setFromCamera n cam) m = hit :: rest ->
    uv hit = Some uv0 ->
    exists l',
      coordLabel moved = Some l' /\
      Label.textContent l' =
      ("(" ++ toFixed (Vector2.x uv0 * imgW s) 0 ++ ", "
           ++ toFixed ((1 - Vector2.y uv0) * imgH s) 0 ++ ")")%string.
Proof.
  intros Hc Hl Hcam Hm r px py w h n moved pressed.
  change n with (ndc c ev).
  destruct (onPointerDown_aim s ev c cam m Hc Hcam Hm) as [Hp Hr].
  assert (Hmove := onPointerMove_aimed s ev c l cam m Hc Hl Hcam Hm).
  cbv zeta in Hmove. subst moved pressed. rewrite Hmove.
  repeat split; try assumption.
  - destruct (intersectObject _ m) as [| hit rest]; [reflexivity |].
    destruct (uv hit); reflexivity.
  - destruct (intersectObject _ m) as [| hit rest]; [reflexivity |].
    destruct (uv hit); reflexivity.
  - intros hit rest uv0 Hhit Huv. rewrite Hhit, Huv.
    eexists. split; reflexivity.
Qed.

(** *** The view does not move *)

Lemma pointer_events_keep_view (e : Event) :
  is_pointer_event e = true ->
  preserves (fun s => (camera s, planeMesh s)) (dispatch e).
Proof.
  destruct e; try discriminate; intros _; unfold dispatch; script; frame.
Qed.

(** C3, as the code has it. No pointer input pans the view: a pointermove
    and a pointerdown leave the camera's position and the plane mesh's
    position where they were. *)
Theorem pointer_events_do_not_pan (s : State) (ev : PointerEvent) :
  let moved := step (PointerMove ev) s in
  let pressed := step (PointerDown ev) s in
  option_map OrthographicCamera.position (camera moved)
  = option_map OrthographicCamera.position (camera s) /\
  option_map Mesh.position (planeMesh moved)
  = option_map Mesh.position (planeMesh s) /\
  option_map OrthographicCamera.position (camera pressed)
  = option_map OrthographicCamera.position (camera s) /\
  option_map Mesh.position (planeMesh pressed)
  = option_map Mesh.position (planeMesh s).
Proof.
  intros moved pressed.
  assert (Hm := pointer_events_keep_view (PointerMove ev) eq_refl s).
  assert (Hp := pointer_events_keep_view (PointerDown ev) eq_refl s).
  fold (step (PointerMove ev) s) in Hm. fold (step (PointerDown ev) s) in Hp.
  fold moved in Hm. fold pressed in Hp.
  injection Hm as -> ->. injection Hp as -> ->.
  repeat split; reflexivity.
Qed.

(** *** Pointer events before an image is loaded *)

Lemma onPointerMove_no_plane (s : State) (ev : PointerEvent) (c : HTMLDivElement.t)
      (l : Label.t) (cam : OrthographicCamera.t) :
  containerRef s = Some c ->
  coordLabel s = Some l ->
  camera s = Some cam ->
  planeMesh s = None ->
  onPointerMove ev s = Threw TypeError (aimed c cam ev s).
Proof.
  intros Hc Hl Hcam Hm.
  unfold onPointerMove, set_pointer_x, set_pointer_y, raycaster_setFromCamera,
    raycaster_intersectObject_planeMesh.
  rewrite !bind_gets, Hc, Hl, !bind_modify.
  rewrite bind_bind, bind_gets, bind_bind, bind_gets.
  cbn [camera set_pointer pointer Vector2.x Vector2.y].
  rewrite Hcam, bind_bind, bind_deref_Some, bind_modify.
  rewrite bind_bind, bind_gets. cbn [planeMesh set_pointer set_raycaster].
  rewrite Hm, bind_bind, bind_deref_None. reflexivity.
Qed.

Lemma onPointerDown_no_plane (s : State) (ev : PointerEvent) (c : HTMLDivElement.t)
      (cam : OrthographicCamera.t) :
  containerRef s = Some c ->
  camera s = Some cam ->
  planeMesh s = None ->
  onPointerDown ev s = Threw TypeError (aimed c cam ev s).
Proof.
  intros Hc Hcam Hm.
  unfold onPointerDown, set_pointer_x, set_pointer_y, raycaster_setFromCamera,
    raycaster_intersectObject_planeMesh.
  rewrite !bind_gets, Hc, !bind_modify.
  rewrite bind_bind, bind_gets, bind_bind, bind_gets.
  cbn [camera set_pointer pointer Vector2.x Vector2.y].
  rewrite Hcam, bind_bind, bind_deref_Some, bind_modify.
  rewrite bind_bind, bind_gets. cbn [planeMesh set_pointer set_raycaster].
  rewrite Hm, bind_bind, bind_deref_None. reflexivity.
Qed.

(** What mounting leaves behind, whatever the elements are. *)
Lemma mount_spec (c : HTMLDivElement.t) (l : Label.t) (cv : HTMLCanvasElement.t)
      (dpr : number) :
  let w := HTMLDivElement.clientWidth c in
  let h := HTMLDivElement.clientHeight c in
  let fr := OrthographicCamera.mkFrustum (- w / 2) (w / 2) (h / 2) (- h / 2)
                                          0x1.999999999999ap-4 1000 in
  mount c l cv dpr initial =
  Returned tt
    (mkState [] (Some (HTMLDivElement.appendRendererCanvas c)) (Some l)
             (Some (HTMLCanvasElement.mk w h))
             (Some (CanvasRenderingContext2D.mk []))
             (Some (OrthographicCamera.mk fr (Vector3.mk 0 0 10) (Vector3.mk 0 0 0) fr))
             (Some (WebGLRenderer.mk w h dpr 1))
             (Some 1%nat) Raycaster.new (Vector2.mk 0 0) None 0 0 []
             [] 0%nat [] [1%nat] 2%nat [ResizeAll]).
Proof. reflexivity. Qed.

(** C9, on the code. Right after mounting no image is loaded and
    [planeMesh] is still undefined; a pointermove and a pointerdown then
    hand it to the raycaster all the same, and both throw a [TypeError]. *)
Theorem pointer_event_before_load_throws (c : HTMLDivElement.t) (l : Label.t)
        (cv : HTMLCanvasElement.t) (dpr : number) (ev : PointerEvent) :
  let s := final (mount c l cv dpr initial) in
  planeMesh s = None /\
  (exists s', onPointerMove ev s = Threw TypeError s') /\
  (exists s', onPointerDown ev s = Threw TypeError s').
Proof.
  intros s. subst s. rewrite mount_spec. cbn [final].
  split; [reflexivity |]. split; eexists.
  - eapply onPointerMove_no_plane; reflexivity.
  - eapply onPointerDown_no_plane; reflexivity.
Qed.

(** *** Resources: the render loop, the listener, the blob URL *)

Lemma remove_singleton {A} (dec : forall a b : A, {a = b} + {a <> b}) (a : A) :
  remove dec a [a] = [].
Proof. simpl. destruct (dec a a); [reflexivity | contradiction]. Qed.

(** A frame of the loop, entered with no frame pending, leaves exactly
    the frame it requested, and its handle in [animationId]. *)
Lemma loop_arms (s : State) :
  frameRequests s = [] ->
  resizeListeners s = [ResizeAll] ->
  loop_armed (final (loop s)).
Proof.
  intros Hf Hl. unfold loop, requestAnimationFrame.
  rewrite bind_bind, bind_gets, bind_bind, bind_modify, bind_ret, bind_modify.
  match goal with
  | |- loop_armed (final (?m ?s1)) =>
      assert (Hk : preserves (fun s => (animationId s, frameRequests s, resizeListeners s)) m)
        by (script; frame);
      specialize (Hk s1); remember (final (m s1)) as s2 eqn:Hs2; clear Hs2;
      cbn in Hk; injection Hk as Ha Hfr Hls
  end.
  exists (nextFrame s). rewrite Ha, Hfr, Hls, Hf, Hl. repeat split; reflexivity.
Qed.

Lemma step_keeps_loop_armed (e : Event) (s : State) :
  loop_armed s -> loop_armed (step e s).
Proof.
  intros (h & Ha & Hf & Hl). unfold step.
  assert (Hkeep : forall m : M unit,
             preserves (fun s => (animationId s, frameRequests s, resizeListeners s)) m ->
             loop_armed (final (m s))).
  { intros m Hm. specialize (Hm s). injection Hm as Ha' Hf' Hl'.
    exists h. rewrite Ha', Hf', Hl'. auto. }
  destruct e as [ev | ev | files | url img | c | h'].
  - apply Hkeep. unfold dispatch. script. frame.
  - apply Hkeep. unfold dispatch. script. frame.
  - apply Hkeep. unfold dispatch. script. frame.
  - apply Hkeep. unfold dispatch. script. frame.
  - apply Hkeep. unfold dispatch. script. frame.
  - unfold dispatch. rewrite bind_gets, Hf.
    destruct (in_dec Nat.eq_dec h' [h]) as [Hin | Hout].
    + destruct Hin as [<- | []]. rewrite remove_singleton, bind_modify.
      apply loop_arms; [reflexivity | exact Hl].
    + exists h. auto.
Qed.

Lemma reachable_loop_armed (s : State) : reachable s -> loop_armed s.
Proof.
  induction 1 as [c l cv dpr | e s Hs IH].
  - rewrite mount_spec. exists 1%nat. repeat split; reflexivity.
  - apply step_keeps_loop_armed, IH.
Qed.


Lemma onFileChange_spec (s : State) (file : File) (files : list File) :
  onFileChange (file :: files) s =
  Returned tt
    (set_textureLoads (textureLoads s ++ [nextURL s])
       (set_nextURL (S (nextURL s))
          (set_objectURLs (nextURL s :: objectURLs s) s))).
Proof. reflexivity. Qed.

Lemma onTextureLoad_spec (s : State) (url : ObjectURL) (tex : Texture) :
  let plane := Mesh.new (PlaneGeometry (image_width (image tex))
                                       (image_height (image tex)))
                        (Material.with_map tex) in
  let mid := set_scene (scene s ++ [plane])
               (set_planeMesh (Some plane)
                  (set_imgH (image_height (image tex))
                     (set_imgW (image_width (image tex)) s))) in
  onTextureLoad url tex s =
  Returned tt (set_objectURLs (remove Nat.eq_dec url (objectURLs mid)) mid).
Proof. reflexivity. Qed.


(** *** Every state of a mounted view has the view in place *)

Lemma step_keeps_mounted (e : Event) : invariant mounted_ok (dispatch e).
Proof.
  destruct e; unfold dispatch; script; repeat mounted_step.
Qed.

Lemma reachable_mounted (s : State) : reachable s -> mounted_ok s.
Proof.
  induction 1 as [c l cv dpr | e s Hs IH].
  - rewrite mount_spec. repeat split; discriminate.
  - apply step_keeps_mounted, IH.
Qed.

(** [resizeAll] is what a resize of the window runs: after the event the
    renderer, the camera and the overlay have the new size of the
    container. *)
Lemma resize_event_synchronizes (s : State) (c : HTMLDivElement.t) :
  reachable s ->
  let w := HTMLDivElement.clientWidth c in
  let h := HTMLDivElement.clientHeight c in
  exists s' r' cam',
    dispatch (Resize c) s = Returned tt s' /\
    renderer s' = Some r' /\
    WebGLRenderer.width r' = w /\ WebGLRenderer.height r' = h /\
    camera s' = Some cam' /\
    OrthographicCamera.left (OrthographicCamera.frustum cam') = - w / 2 /\
    OrthographicCamera.right (OrthographicCamera.frustum cam') = w / 2 /\
    OrthographicCamera.top (OrthographicCamera.frustum cam') = h / 2 /\
    OrthographicCamera.bottom (OrthographicCamera.frustum cam') = - h / 2 /\
    overlay s' = Some (HTMLCanvasElement.mk w h).
Proof.
  intros Hs w h.
  destruct (reachable_loop_armed s Hs) as (fh & _ & _ & Hl).
  destruct (reachable_mounted s Hs) as (Hc & _ & Hcv & _ & Hcam & Hr).
  destruct (containerRef s) as [c0 |] eqn:Ec; [| contradiction].
  destruct (overlay s) as [cv |] eqn:Ecv; [| contradiction].
  destruct (camera s) as [cam |] eqn:Ecam; [| contradiction].
  destruct (renderer s) as [r |] eqn:Er; [| contradiction].
  unfold dispatch. rewrite bind_gets, Ec, bind_modify, bind_gets.
  cbn [resizeListeners set_containerRef]. rewrite Hl. cbn [for_of run_listener].
  unfold bind at 1.
  rewrite (resizeAll_spec (set_containerRef (Some c) s) c r cam cv
             eq_refl Er Ecam Ecv).
  cbv zeta. do 3 eexists. split; [reflexivity |].
  cbn. repeat split; reflexivity.
Qed.

(** *** Hovering *)

(** X1. A pointermove never draws, stores or loads anything: whatever
    the state and whether it returns or throws, only the pointer, the
    raycaster and the coordinate label can differ afterwards. *)
Theorem onPointerMove_only_hovers (ev : PointerEvent) (s : State) :
  beyond_hover (final (onPointerMove ev s)) = beyond_hover s.
Proof.
  revert s. change (preserves beyond_hover (onPointerMove ev)).
  unfold beyond_hover. script. frame.
Qed.

(** X2. When the ray of a pointermove misses the plane, the label shows a
    dash and is left where it was; nothing else but the pointer and the
    ray changes. *)
Theorem onPointerMove_miss (s : State) (ev : PointerEvent) (c : HTMLDivElement.t)
        (l : Label.t) (cam : OrthographicCamera.t) (m : Mesh.t) :
  containerRef s = Some c ->
  coordLabel s = Some l ->
  camera s = Some cam ->
  planeMesh s = Some m ->
  intersectObject (setFromCamera (ndc c ev) cam) m = [] ->
  exists s' l',
    onPointerMove ev s = Returned tt s' /\
    coordLabel s' = Some l' /\
    Label.textContent l' = "—"%string /\
    Label.style_left l' = Label.style_left l /\
    Label.style_top l' = Label.style_top l.
Proof.
  intros Hc Hl Hcam Hm Hmiss.
  rewrite (onPointerMove_aimed s ev c l cam m Hc Hl Hcam Hm), Hmiss.
  do 2 eexists. split; [reflexivity |]. cbn. repeat split; reflexivity.
Qed.

(** X3. When the ray of a pointermove hits, the label is moved to the
    pointer: its left is [px] pixels and its top [py - 20] pixels, with
    [(px, py)] the pointer relative to the container. *)
Theorem onPointerMove_places_label (s : State) (ev : PointerEvent)
        (c : HTMLDivElement.t) (l : Label.t) (cam : OrthographicCamera.t)
        (m : Mesh.t) (hit : Intersection) (rest : list Intersection)
        (uv0 : Vector2.t) :
  containerRef s = Some c ->
  coordLabel s = Some l ->
  camera s = Some cam ->
  planeMesh s = Some m ->
  intersectObject (setFromCamera (ndc c ev) cam) m = hit :: rest ->
  uv hit = Some uv0 ->
  let r := HTMLDivElement.boundingClientRect c in
  let px := clientX ev - DOMRect.left r in
  let py := clientY ev - DOMRect.top r in
  exists s' l',
    onPointerMove ev s = Returned tt s' /\
    coordLabel s' = Some l' /\
    Label.style_left l' = (toString px ++ "px")%string /\
    Label.style_top l' = (toString (py - 20) ++ "px")%string.
Proof.
  intros Hc Hl Hcam Hm Hhit Huv r px py.
  rewrite (onPointerMove_aimed s ev c l cam m Hc Hl Hcam Hm), Hhit, Huv.
  do 2 eexists. split; [reflexivity |]. cbn. repeat split; reflexivity.
Qed.

(** A hit without texture coordinates: reading [uv.x] throws. *)
Lemma onPointerMove_no_uv (s : State) (ev : PointerEvent) (c : HTMLDivElement.t)
      (l : Label.t) (cam : OrthographicCamera.t) (m : Mesh.t)
      (hit : Intersection) (rest : list Intersection) :
  containerRef s = Some c ->
  coordLabel s = Some l ->
  camera s = Some cam ->
  planeMesh s = Some m ->
  intersectObject (setFromCamera (ndc c ev) cam) m = hit :: rest ->
  uv hit = None ->
  onPointerMove ev s = Threw TypeError (aimed c cam ev s).
Proof.
  intros Hc Hl Hcam Hm Hhit Huv.
  rewrite (onPointerMove_aimed s ev c l cam m Hc Hl Hcam Hm), Hhit, Huv.
  reflexivity.
Qed.

(** *** Every way a pointerdown can go *)

Lemma onPointerDown_no_container (s : State) (ev : PointerEvent) :
  containerRef s = None -> onPointerDown ev s = Returned tt s.
Proof.
  intros Hc. unfold onPointerDown. rewrite bind_gets, Hc. reflexivity.
Qed.

Lemma onPointerDown_no_camera (s : State) (ev : PointerEvent) (c : HTMLDivElement.t) :
  containerRef s = Some c ->
  camera s = None ->
  onPointerDown ev s = Threw TypeError (set_pointer (ndc c ev) s).
Proof.
  intros Hc Hcam.
  unfold onPointerDown, set_pointer_x, set_pointer_y, raycaster_setFromCamera.
  rewrite bind_gets, Hc, !bind_modify.
  rewrite bind_bind, bind_gets, bind_bind, bind_gets.
  cbn [camera set_pointer pointer Vector2.x Vector2.y].
  rewrite Hcam, bind_bind, bind_deref_None. reflexivity.
Qed.

Lemma store_keeps_scene (pt : Pt) :
  preserves (fun s => (scene s, planeMesh s, imgW s, imgH s)) (store pt).
Proof. script. frame. Qed.

Lemma drawOverlay_keeps_points : preserves points drawOverlay.
Proof. script. frame. Qed.

Lemma store_points (pt : Pt) (s : State) :
  points (final (store pt s)) = points s ++ [pt].
Proof.
  unfold store. rewrite bind_modify, drawOverlay_keeps_points. reflexivity.
Qed.

Lemma createShape_points (s : State) :
  points (final (createShape s)) = [] \/ points (final (createShape s)) = points s.
Proof.
  destruct (overlayCtx s) as [ctx |] eqn:Hctx; [destruct (overlay s) as [cv |] eqn:Hcv |].
  - left. rewrite (createShape_spec s ctx cv Hctx Hcv). reflexivity.
  - right. unfold createShape, scene_add.
    rewrite bind_gets, bind_modify, bind_gets. cbn [overlayCtx set_scene].
    rewrite Hctx, bind_deref_Some, bind_gets. cbn [overlay set_scene].
    rewrite Hcv, bind_deref_None. reflexivity.
  - right. unfold createShape, scene_add.
    rewrite bind_gets, bind_modify, bind_gets. cbn [overlayCtx set_scene].
    rewrite Hctx, bind_deref_None. reflexivity.
Qed.

Lemma createShape_keeps_plane :
  preserves (fun s => (planeMesh s, imgW s, imgH s)) createShape.
Proof. script. frame. Qed.

Lemma closure_rule_three (pts : list Pt) (wp : Vector3.t) :
  closure_rule pts wp = true -> (3 <= List.length pts)%nat.
Proof.
  unfold closure_rule. intros H. apply andb_prop in H as [H _].
  now apply Nat.leb_le.
Qed.

(** The scene after a pointerdown: as it was, or with the polygon of the
    stored points, of which there were at least three. *)
Lemma onPointerDown_scene (s : State) (ev : PointerEvent) :
  scene (final (onPointerDown ev s)) = scene s \/
  ((3 <= List.length (points s))%nat /\
   scene (final (onPointerDown ev s)) = scene s ++ [polygon (points s)]).
Proof.
  destruct (containerRef s) as [c |] eqn:Hc;
    [| left; now rewrite onPointerDown_no_container].
  destruct (camera s) as [cam |] eqn:Hcam;
    [| left; now rewrite (onPointerDown_no_camera s ev c)].
  destruct (planeMesh s) as [m |] eqn:Hm;
    [| left; now rewrite (onPointerDown_no_plane s ev c cam)].
  rewrite (onPointerDown_aimed s ev c cam m Hc Hcam Hm). cbv zeta.
  destruct (intersectObject _ m) as [| hit rest]; [now left |].
  destruct (closure_rule (points s) (point hit)) eqn:Hrule.
  - right. split; [now apply closure_rule_three in Hrule |].
    rewrite createShape_scene. reflexivity.
  - left.
    match goal with
    | |- scene (final (store ?pt ?s0)) = _ =>
        pose proof (store_keeps_scene pt s0) as H; cbn in H
    end.
    now injection H.
Qed.

Lemma onPointerDown_keeps_plane (ev : PointerEvent) :
  preserves (fun s => (planeMesh s, imgW s, imgH s)) (onPointerDown ev).
Proof. script. frame. Qed.

(** X4. A pointerdown never edits the stored points: afterwards they are
    the same, or the same with one point appended, or none at all (the
    shape was closed). *)
Theorem onPointerDown_points_append_or_reset (s : State) (ev : PointerEvent) :
  let s' := step (PointerDown ev) s in
  points s' = points s \/
  points s' = [] \/
  exists pt, points s' = points s ++ [pt].
Proof.
  intros s'. subst s'. unfold step, dispatch.
  destruct (containerRef s) as [c |] eqn:Hc;
    [| left; now rewrite onPointerDown_no_container].
  destruct (camera s) as [cam |] eqn:Hcam;
    [| left; now rewrite (onPointerDown_no_camera s ev c)].
  destruct (planeMesh s) as [m |] eqn:Hm;
    [| left; now rewrite (onPointerDown_no_plane s ev c cam)].
  rewrite (onPointerDown_aimed s ev c cam m Hc Hcam Hm). cbv zeta.
  destruct (intersectObject _ m) as [| hit rest]; [now left |].
  destruct (closure_rule (points s) (point hit)).
  - destruct (createShape_points (aimed c cam ev s)) as [H | H]; rewrite H; auto.
  - right; right. eexists. rewrite store_points. reflexivity.
Qed.

(** X5. No event ever removes or replaces a mesh of the scene: after any
    event the scene is what it was, followed by at most one new mesh. *)
Theorem scene_only_grows (e : Event) (s : State) :
  exists added,
    scene (step e s) = scene s ++ added /\ (List.length added <= 1)%nat.
Proof.
  assert (Hsame : forall m : M unit, preserves scene m ->
            exists added, scene (final (m s)) = scene s ++ added
                          /\ (List.length added <= 1)%nat).
  { intros m Hm. exists []. rewrite Hm, app_nil_r. split; [reflexivity | apply Nat.le_0_l]. }
  unfold step. destruct e as [ev | ev | files | url img | c | h].
  - apply Hsame. unfold dispatch. script. frame.
  - unfold dispatch. destruct (onPointerDown_scene s ev) as [H | [_ H]].
    + exists []. rewrite H, app_nil_r. split; [reflexivity | apply Nat.le_0_l].
    + eexists. split; [exact H | apply Nat.le_refl].
  - apply Hsame. unfold dispatch. script. frame.
  - unfold dispatch. rewrite bind_gets.
    destruct (in_dec Nat.eq_dec url (textureLoads s)).
    + rewrite bind_modify, onTextureLoad_spec. cbv zeta.
      eexists. split; [reflexivity | apply Nat.le_refl].
    + exists []. rewrite app_nil_r. split; [reflexivity | apply Nat.le_0_l].
  - apply Hsame. unfold dispatch. script. frame.
  - apply Hsame. unfold dispatch. script. frame.
Qed.

(** *** What every state of a mounted view satisfies *)

Lemma Forall_snoc {A} (Q : A -> Prop) (l : list A) (a : A) :
  Forall Q l -> Q a -> Forall Q (l ++ [a]).
Proof. intros Hl Ha. apply Forall_app. split; [exact Hl | now constructor]. Qed.

(** X6. Every closed shape in the scene has at least three vertices,
    however the view was used since it was mounted. *)
Theorem closed_shapes_have_three_vertices (s : State) :
  reachable s -> Forall closed_shape_ok (scene s).
Proof.
  induction 1 as [c l cv dpr | e s Hs IH].
  - rewrite mount_spec. constructor.
  - assert (Hsame : forall m : M unit, preserves scene m ->
              Forall closed_shape_ok (scene (final (m s)))).
    { intros m Hm. now rewrite Hm. }
    unfold step. destruct e as [ev | ev | files | url img | c | h].
    + apply Hsame. unfold dispatch. script. frame.
    + unfold dispatch. destruct (onPointerDown_scene s ev) as [H | [Hlen H]]; rewrite H.
      * exact IH.
      * apply Forall_snoc; [exact IH |].
        unfold closed_shape_ok, polygon. cbn. now rewrite length_map.
    + apply Hsame. unfold dispatch. script. frame.
    + unfold dispatch. rewrite bind_gets.
      destruct (in_dec Nat.eq_dec url (textureLoads s)); [| exact IH].
      rewrite bind_modify, onTextureLoad_spec. cbv zeta. cbn.
      apply Forall_snoc; [exact IH | exact I].
    + apply Hsame. unfold dispatch. script. frame.
    + apply Hsame. unfold dispatch. script. frame.
Qed.

(** X7. The plane the pointer is cast against is always the plane of the
    image loaded last: its geometry has the dimensions [imgW] x [imgH]
    the label is computed from, it sits at the origin and it is in the
    scene; until an image has loaded, [imgW] and [imgH] are 0. *)
Theorem plane_matches_image (s : State) :
  reachable s -> plane_consistent s.
Proof.
  induction 1 as [c l cv dpr | e s Hs IH].
  - rewrite mount_spec. split; reflexivity.
  - assert (Hsame : forall m : M unit,
              preserves (fun s => (scene s, planeMesh s, imgW s, imgH s)) m ->
              plane_consistent (final (m s))).
    { intros m Hm. specialize (Hm s). injection Hm as Hsc Hp Hw Hh.
      unfold plane_consistent. now rewrite Hp, Hw, Hh, Hsc. }
    unfold step. destruct e as [ev | ev | files | url img | c | h].
    + apply Hsame. unfold dispatch. script. frame.
    + unfold dispatch.
      pose proof (onPointerDown_keeps_plane ev s) as Hk. injection Hk as Hp Hw Hh.
      unfold plane_consistent. rewrite Hp, Hw, Hh.
      unfold plane_consistent in IH.
      destruct (planeMesh s) as [m |]; [| exact IH].
      destruct IH as (Hg & Hpos & Hin). repeat split; try assumption.
      destruct (onPointerDown_scene s ev) as [H | [_ H]]; rewrite H.
      * exact Hin.
      * apply in_or_app. now left.
    + apply Hsame. unfold dispatch. script. frame.
    + unfold dispatch. rewrite bind_gets.
      destruct (in_dec Nat.eq_dec url (textureLoads s)); [| exact IH].
      rewrite bind_modify, onTextureLoad_spec. cbv zeta.
      unfold plane_consistent. cbn. repeat split.
      apply in_or_app. right. now left.
    + apply Hsame. unfold dispatch. script. frame.
    + apply Hsame. unfold dispatch. script. frame.
Qed.

(** X8. Blob URLs do not pile up: in every state of a mounted view the
    URLs that are alive are exactly those whose texture is still loading,
    so that once every load has completed none is left. *)
Theorem live_urls_are_loading (s : State) :
  reachable s ->
  (forall u, In u (objectURLs s) <-> In u (textureLoads s)) /\
  (textureLoads s = [] -> objectURLs s = []).
Proof.
  intros Hs.
  assert (Hiff : forall u, In u (objectURLs s) <-> In u (textureLoads s)).
  { induction Hs as [c l cv dpr | e s Hs IH].
    - rewrite mount_spec. intros u. reflexivity.
    - assert (Hsame : forall m : M unit,
                preserves (fun s => (objectURLs s, textureLoads s)) m ->
                forall u, In u (objectURLs (final (m s)))
                          <-> In u (textureLoads (final (m s)))).
      { intros m Hm u. specialize (Hm s). injection Hm as -> ->. apply IH. }
      unfold step. destruct e as [ev | ev | files | url img | c | h].
      + apply Hsame. unfold dispatch. script. frame.
      + apply Hsame. unfold dispatch. script. frame.
      + unfold dispatch. destruct files as [| file files]; [exact IH |].
        rewrite onFileChange_spec. cbn. intros u.
        rewrite in_app_iff, IH. cbn. tauto.
      + unfold dispatch. rewrite bind_gets.
        destruct (in_dec Nat.eq_dec url (textureLoads s)); [| exact IH].
        rewrite bind_modify, onTextureLoad_spec. cbv zeta. cbn. intros u.
        split; intros Hu.
        * apply in_remove in Hu as [Hu Hne].
          apply in_in_remove; [exact Hne | now apply IH].
        * apply in_remove in Hu as [Hu Hne].
          apply in_in_remove; [exact Hne | now apply IH].
      + apply Hsame. unfold dispatch. script. frame.
      + apply Hsame. unfold dispatch. script. frame. }
  split; [exact Hiff |].
  intros Hnone. destruct (objectURLs s) as [| u us]; [reflexivity |].
  exfalso. rewrite Hnone in Hiff. apply (Hiff u). now left.
Qed.

Lemma renderer_update_keeps {B} (f : State -> B)
      (g : WebGLRenderer.t -> WebGLRenderer.t) :
  (forall s r, renderer s = Some r -> f (set_renderer (Some (g r)) s) = f s) ->
  preserves f (renderer_update g).
Proof.
  intros H s. unfold renderer_update. rewrite bind_gets.
  destruct (renderer s) as [r |] eqn:E.
  - rewrite bind_deref_Some. apply H, E.
  - reflexivity.
Qed.

Lemma camera_update_keeps {B} (f : State -> B)
      (g : OrthographicCamera.t -> OrthographicCamera.t) :
  (forall s c, camera s = Some c -> f (set_camera (Some (g c)) s) = f s) ->
  preserves f (camera_update g).
Proof.
  intros H s. unfold camera_update. rewrite bind_gets.
  destruct (camera s) as [c |] eqn:E.
  - rewrite bind_deref_Some. apply H, E.
  - reflexivity.
Qed.

(** The sizes of the view: nothing but a resize touches them. *)
Lemma loop_keeps_layout :
  preserves (fun s => (containerRef s, overlay s, camera s, renderer_size s)) loop.
Proof.
  unfold loop, requestAnimationFrame.
  repeat first
    [ apply renderer_update_keeps;
      intros s r E; unfold renderer_size; cbn; rewrite E; reflexivity
    | frame_step ].
Qed.

Lemma step_keeps_layout (e : Event) :
  (forall c, e <> Resize c) ->
  preserves (fun s => (containerRef s, overlay s, camera s, renderer_size s))
            (dispatch e).
Proof.
  intros Hne. destruct e as [ev | ev | files | url img | c | h].
  - unfold dispatch. script. frame.
  - unfold dispatch. script. frame.
  - unfold dispatch. script. frame.
  - unfold dispatch. script. frame.
  - now contradiction (Hne c).
  - unfold dispatch.
    apply preserves_bind; [apply preserves_gets | intro fs].
    destruct (in_dec Nat.eq_dec h fs); [| apply preserves_ret].
    apply preserves_bind; [apply preserves_modify; intro; reflexivity | intro].
    apply loop_keeps_layout.
Qed.

Lemma resize_event_spec (s : State) (c : HTMLDivElement.t) :
  reachable s ->
  exists r cam cv,
    renderer s = Some r /\ camera s = Some cam /\ overlay s = Some cv /\
    let w := HTMLDivElement.clientWidth c in
    let h := HTMLDivElement.clientHeight c in
    let fr := OrthographicCamera.mkFrustum
                (- w / 2) (w / 2) (h / 2) (- h / 2)
                (OrthographicCamera.near (OrthographicCamera.frustum cam))
                (OrthographicCamera.far (OrthographicCamera.frustum cam)) in
    dispatch (Resize c) s =
    Returned tt
      (set_overlay (Some (HTMLCanvasElement.mk w h))
         (set_camera
            (Some (OrthographicCamera.mk fr (OrthographicCamera.position cam)
                                         (OrthographicCamera.target cam) fr))
            (set_renderer (Some (WebGLRenderer.setSize w h r))
                          (set_containerRef (Some c) s)))).
Proof.
  intros Hs.
  destruct (reachable_loop_armed s Hs) as (fh & _ & _ & Hl).
  destruct (reachable_mounted s Hs) as (Hc & _ & Hcv & _ & Hcam & Hr).
  destruct (containerRef s) as [c0 |] eqn:Ec; [| contradiction].
  destruct (overlay s) as [cv |] eqn:Ecv; [| contradiction].
  destruct (camera s) as [cam |] eqn:Ecam; [| contradiction].
  destruct (renderer s) as [r |] eqn:Er; [| contradiction].
  exists r, cam, cv. repeat split.
  unfold dispatch. rewrite bind_gets, Ec, bind_modify, bind_gets.
  cbn [resizeListeners set_containerRef]. rewrite Hl. cbn [for_of run_listener].
  unfold bind at 1.
  rewrite (resizeAll_spec (set_containerRef (Some c) s) c r cam cv
             eq_refl Er Ecam Ecv).
  reflexivity.
Qed.

Lemma layout_kept_synchronized (s s' : State) :
  synchronized s ->
  (containerRef s', overlay s', camera s', renderer_size s')
  = (containerRef s, overlay s, camera s, renderer_size s) ->
  synchronized s'.
Proof.
  intros (c0 & r0 & cam0 & cv0 & Ec & Er & Ecam & Ecv & Hsync) Hk.
  injection Hk as Hc Hcv Hcam Hr.
  unfold renderer_size in Hr. rewrite Er in Hr.
  destruct (renderer s') as [r1 |] eqn:Er1; [| discriminate].
  injection Hr as Hw Hh.
  exists c0, r1, cam0, cv0.
  rewrite Hc, Hcam, Hcv, Hw, Hh. repeat split; tauto.
Qed.

(** X9. Renderer, camera and overlay are in step with the container at
    all times: in every state of a mounted view the renderer's size and
    the overlay canvas's size are the container's client size [(w, h)],
    the frustum is [(-w/2, w/2, h/2, -h/2)] and the projection matrix is
    the one of that frustum. *)
Theorem view_stays_synchronized (s : State) :
  reachable s -> synchronized s.
Proof.
  induction 1 as [c l cv dpr | e s Hs IH].
  - rewrite mount_spec. unfold synchronized. cbn.
    do 4 eexists. repeat split; reflexivity.
  - destruct e as [ev | ev | files | url img | c | h];
      try (apply (layout_kept_synchronized s); [exact IH |];
           apply step_keeps_layout; intros; discriminate).
    destruct (resize_event_spec s c Hs) as (r & cam & cv & _ & _ & _ & Hrun).
    cbv zeta in Hrun. unfold step. rewrite Hrun. unfold synchronized. cbn.
    do 4 eexists. repeat split; reflexivity.
Qed.

Lemma step_keeps_pose (e : Event) :
  (forall c, e <> Resize c) -> preserves camera_pose (dispatch e).
Proof.
  intros Hne. destruct e as [ev | ev | files | url img | c | h];
    try solve [unfold dispatch, camera_pose; script; frame].
  now contradiction (Hne c).
Qed.

(** X10. The camera never moves: in every state of a mounted view it is
    at (0, 0, 10), looks at the origin and has its near plane at 0.1 and
    its far plane at 1000; a resize changes the four sides of its frustum
    and nothing else of it. *)
Theorem camera_pose_is_fixed (s : State) :
  reachable s ->
  camera_pose s =
  Some (Vector3.mk 0 0 10, Vector3.mk 0 0 0, 0x1.999999999999ap-4, 1000).
Proof.
  induction 1 as [c l cv dpr | e s Hs IH].
  - rewrite mount_spec. reflexivity.
  - destruct e as [ev | ev | files | url img | c | h];
      try (rewrite <- IH; apply step_keeps_pose; intros; discriminate).
    destruct (resize_event_spec s c Hs) as (r & cam & cv & _ & Ecam & _ & Hrun).
    cbv zeta in Hrun. rewrite <- IH. unfold step. rewrite Hrun.
    unfold camera_pose. cbn. now rewrite Ecam.
Qed.

(** *** The render loop, frame by frame *)

Lemma loop_tail_keeps_frames :
  preserves (fun s => (animationId s, frameRequests s, nextFrame s, resizeListeners s))
            (bind (gets camera) (fun cam =>
             bind (deref cam) (fun _ => renderer_update WebGLRenderer.render))).
Proof. script. frame. Qed.

Lemma step_keeps_frames (e : Event) :
  (forall h, e <> AnimationFrame h) ->
  preserves (fun s => (animationId s, frameRequests s, nextFrame s, resizeListeners s))
            (dispatch e).
Proof.
  intros Hne. destruct e as [ev | ev | files | url img | c | h];
    try solve [unfold dispatch; script; frame].
  now contradiction (Hne h).
Qed.

(** Handles are handed out in increasing order: the one in use is
    smaller than the next. *)
Lemma reachable_handle_fresh (s : State) :
  reachable s ->
  exists h, animationId s = Some h /\ (h < nextFrame s)%nat.
Proof.
  induction 1 as [c l cv dpr | e s Hs IH].
  - rewrite mount_spec. exists 1%nat. cbn. split; auto.
  - destruct IH as (h1 & Ha1 & Hlt).
    destruct e as [ev | ev | files | url img | c | h'];
      try (match goal with
           | |- context [step ?e s] =>
               pose proof (step_keeps_frames e ltac:(intros; discriminate) s) as Hk;
               change (final (dispatch e s)) with (step e s) in Hk
           end;
           injection Hk as -> _ -> _; exists h1; auto).
    unfold step, dispatch. rewrite bind_gets.
    destruct (in_dec Nat.eq_dec h' (frameRequests s)); [| exists h1; auto].
    rewrite bind_modify. unfold loop, requestAnimationFrame.
    rewrite bind_bind, bind_gets, bind_bind, bind_modify, bind_ret, bind_modify.
    match goal with
    | |- context [final (?m ?s1)] =>
        pose proof (loop_tail_keeps_frames s1) as Hk;
        remember (final (m s1)) as s2 eqn:Hs2; clear Hs2
    end.
    cbn in Hk. injection Hk as Ha' _ Hn' _.
    exists (nextFrame s). rewrite Ha', Hn'. split; auto.
Qed.

(** X11. The render loop never stacks up: in every state of a mounted
    view exactly one animation frame is requested, its handle is the one
    kept in [animationId] and is smaller than the next handle to be
    handed out, and exactly one resize listener is registered. *)
Theorem render_loop_one_frame_pending (s : State) :
  reachable s ->
  exists h,
    animationId s = Some h /\ frameRequests s = [h] /\
    (h < nextFrame s)%nat /\ resizeListeners s = [ResizeAll].
Proof.
  intros Hs.
  destruct (reachable_loop_armed s Hs) as (h & Ha & Hf & Hl).
  destruct (reachable_handle_fresh s Hs) as (h1 & Ha1 & Hlt).
  rewrite Ha in Ha1. injection Ha1 as <-.
  exists h. repeat split; assumption.
Qed.

(** X12. When the pending animation frame comes, the loop renders
    exactly one frame, requests the next one under a new handle and
    keeps that handle; the scene, the points and the overlay are not
    touched. *)
Theorem animation_frame_renders_once (s : State) (h : nat) :
  reachable s ->
  animationId s = Some h ->
  exists s' r,
    dispatch (AnimationFrame h) s = Returned tt s' /\
    renderer s = Some r /\
    renderer s' = Some (WebGLRenderer.render r) /\
    animationId s' = Some (nextFrame s) /\
    frameRequests s' = [nextFrame s] /\
    nextFrame s <> h /\
    scene s' = scene s /\ points s' = points s /\ overlayCtx s' = overlayCtx s.
Proof.
  intros Hs Ha.
  destruct (reachable_loop_armed s Hs) as (h0 & Ha0 & Hf & _).
  rewrite Ha in Ha0. injection Ha0 as <-.
  destruct (reachable_handle_fresh s Hs) as (h1 & Ha1 & Hlt).
  rewrite Ha in Ha1. injection Ha1 as <-.
  destruct (reachable_mounted s Hs) as (_ & _ & _ & _ & Hcam & Hr).
  destruct (camera s) as [cam |] eqn:Ecam; [| contradiction].
  destruct (renderer s) as [r |] eqn:Er; [| contradiction].
  unfold dispatch. rewrite bind_gets, Hf.
  destruct (in_dec Nat.eq_dec h [h]) as [_ | Hout]; [| exfalso; apply Hout; now left].
  rewrite remove_singleton, bind_modify.
  unfold loop, requestAnimationFrame, renderer_update.
  rewrite bind_bind, bind_gets, bind_bind, bind_modify, bind_ret, bind_modify.
  rewrite bind_gets. cbn [camera set_animationId set_nextFrame set_frameRequests].
  rewrite Ecam, bind_deref_Some, bind_gets.
  cbn [renderer set_animationId set_nextFrame set_frameRequests].
  rewrite Er, bind_deref_Some.
  do 2 eexists. split; [reflexivity |]. cbn.
  repeat split; try reflexivity.
  intros Heq. rewrite Heq in Hlt. now apply Nat.lt_irrefl in Hlt.
Qed.

(** *** Pointer events before and after an image has loaded *)

(** X13. As long as no image has loaded, every pointermove and every
    pointerdown over a mounted view throws a [TypeError]: nothing is
    stored or drawn, and the label is not updated. *)
Theorem pointer_events_throw_until_loaded (s : State) (ev : PointerEvent) :
  reachable s ->
  planeMesh s = None ->
  (exists s', onPointerMove ev s = Threw TypeError s' /\
              beyond_hover s' = beyond_hover s /\ coordLabel s' = coordLabel s) /\
  (exists s', onPointerDown ev s = Threw TypeError s' /\
              beyond_hover s' = beyond_hover s /\ coordLabel s' = coordLabel s).
Proof.
  intros Hs Hplane.
  destruct (reachable_mounted s Hs) as (Hc & Hl & _ & _ & Hcam & _).
  destruct (containerRef s) as [c |] eqn:Ec; [| contradiction].
  destruct (coordLabel s) as [l |] eqn:El; [| contradiction].
  destruct (camera s) as [cam |] eqn:Ecam; [| contradiction].
  split; eexists; (split; [| split]).
  - apply (onPointerMove_no_plane s ev c l cam Ec El Ecam Hplane).
  - reflexivity.
  - cbn. exact El.
  - apply (onPointerDown_no_plane s ev c cam Ec Ecam Hplane).
  - reflexivity.
  - cbn. exact El.
Qed.

Lemma step_keeps_plane_loaded (e : Event) (s : State) :
  planeMesh s <> None -> planeMesh (step e s) <> None.
Proof.
  intros Hp.
  assert (Hsame : forall m : M unit, preserves planeMesh m ->
            planeMesh (final (m s)) <> None).
  { intros m Hm. now rewrite Hm. }
  unfold step. destruct e as [ev | ev | files | url img | c | h];
    try solve [apply Hsame; unfold dispatch; script; frame].
  unfold dispatch. rewrite bind_gets.
  destruct (in_dec Nat.eq_dec url (textureLoads s)); [| exact Hp].
  rewrite bind_modify, onTextureLoad_spec. cbv zeta. cbn. discriminate.
Qed.

(** X14. Once an image has loaded the plane stays loaded whatever
    happens next, and from then on no pointerdown throws: it returns,
    whether the ray misses, the point is stored or the shape is closed. *)
Theorem pointerdown_is_safe_once_loaded (s : State) :
  reachable s ->
  planeMesh s <> None ->
  (forall e, planeMesh (step e s) <> None) /\
  (forall ev, exists s', onPointerDown ev s = Returned tt s').
Proof.
  intros Hs Hp. split; [intros e; now apply step_keeps_plane_loaded |].
  intros ev.
  destruct (reachable_mounted s Hs) as (Hc & _ & Hcv & Hctx & Hcam & _).
  destruct (containerRef s) as [c |] eqn:Ec; [| contradiction].
  destruct (overlay s) as [cv |] eqn:Ecv; [| contradiction].
  destruct (overlayCtx s) as [ctx |] eqn:Ectx; [| contradiction].
  destruct (camera s) as [cam |] eqn:Ecam; [| contradiction].
  destruct (planeMesh s) as [m |] eqn:Em; [| contradiction].
  rewrite (onPointerDown_aimed s ev c cam m Ec Ecam Em). cbv zeta.
  destruct (intersectObject _ m) as [| hit rest]; [eexists; reflexivity |].
  destruct (closure_rule (points s) (point hit)).
  - erewrite createShape_spec by (cbn; eassumption). eexists; reflexivity.
  - match goal with
    | |- context [store ?pt ?s0] =>
        destruct (store_spec pt s0 ctx cv Ectx Ecv) as [ctx' Hst]
    end.
    rewrite Hst. eexists; reflexivity.
Qed.

(** *** After unmounting *)

Lemma unmount_refs (s : State) :
  containerRef (final (unmount s)) = None /\
  coordLabel (final (unmount s)) = None /\
  overlay (final (unmount s)) = None.
Proof.
  unfold unmount, onUnmounted, window_removeResizeListener.
  rewrite !bind_modify, bind_gets. cbn.
  destruct (animationId s); cbn; repeat split; reflexivity.
Qed.

(** X15. An event that arrives after the view was unmounted finds the
    template refs empty and does nothing: a pointermove, a pointerdown,
    [resizeAll] and [drawOverlay] all return with the state as it was. *)
Theorem late_events_do_nothing (s : State) (ev : PointerEvent) :
  let s' := final (unmount s) in
  onPointerMove ev s' = Returned tt s' /\
  onPointerDown ev s' = Returned tt s' /\
  resizeAll s' = Returned tt s' /\
  drawOverlay s' = Returned tt s'.
Proof.
  intros s'. destruct (unmount_refs s) as (Hc & Hl & Hcv). fold s' in Hc, Hl, Hcv.
  repeat split.
  - unfold onPointerMove. rewrite !bind_gets, Hc. reflexivity.
  - unfold onPointerDown. rewrite bind_gets, Hc. reflexivity.
  - unfold resizeAll. rewrite bind_gets, Hc. reflexivity.
  - unfold drawOverlay. rewrite !bind_gets, Hcv. destruct (overlayCtx s'); reflexivity.
Qed.

(** *** Closing a shape without an overlay *)


(** *** A texture has loaded *)

(** X17. When the texture of a pending load arrives, [imgW] and [imgH]
    become the image's width and height and the plane has exactly these
    dimensions; the load is pending no more.  Nothing drawn so far is
    reset: the stored points, the overlay and every mesh already in the
    scene stay, the new plane coming after them. *)
Theorem texture_load_sets_image (s : State) (url : ObjectURL) (img : Image) :
  In url (textureLoads s) ->
  exists s' plane,
    dispatch (TextureLoaded url img) s = Returned tt s' /\
    imgW s' = image_width img /\ imgH s' = image_height img /\
    planeMesh s' = Some plane /\
    Mesh.geometry plane = PlaneGeometry (image_width img) (image_height img) /\
    scene s' = scene s ++ [plane] /\
    ~ In url (textureLoads s') /\
    points s' = points s /\ overlayCtx s' = overlayCtx s /\
    camera s' = camera s.
Proof.
  intros Hin. unfold dispatch. rewrite bind_gets.
  destruct (in_dec Nat.eq_dec url (textureLoads s)) as [_ | Hn]; [| contradiction].
  rewrite bind_modify, onTextureLoad_spec. cbv zeta.
  do 2 eexists. split; [reflexivity |]. cbn.
  repeat split; try reflexivity. apply remove_In.
Qed.

(** *** What a click shows and what it leaves alone *)

(** X18. A click that stores a point redraws the overlay with that point
    included: the calls made on the overlay are one redraw for the stored
    points followed by the new one. *)
Theorem stored_point_is_drawn (s : State) (ev : PointerEvent)
        (c : HTMLDivElement.t) (cam : OrthographicCamera.t) (m : Mesh.t)
        (ctx : CanvasRenderingContext2D.t) (cv : HTMLCanvasElement.t)
        (hit : Intersection) (rest : list Intersection) :
  containerRef s = Some c ->
  camera s = Some cam ->
  planeMesh s = Some m ->
  overlayCtx s = Some ctx ->
  overlay s = Some cv ->
  intersectObject (setFromCamera (ndc c ev) cam) m = hit :: rest ->
  closure_rule (points s) (point hit) = false ->
  let r := HTMLDivElement.boundingClientRect c in
  let pt := mkPt (clientX ev - DOMRect.left r) (clientY ev - DOMRect.top r)
                 (Vector3.x (point hit)) (Vector3.y (point hit)) in
  exists s',
    onPointerDown ev s = Returned tt s' /\
    points s' = points s ++ [pt] /\
    overlayCtx s' =
    Some (CanvasRenderingContext2D.mk
            (CanvasRenderingContext2D.calls ctx ++ redraw_calls cv (points s ++ [pt]))).
Proof.
  intros Hc Hcam Hm Hctx Hcv Hhit Hrule r pt.
  rewrite (onPointerDown_aimed s ev c cam m Hc Hcam Hm), Hhit. cbv zeta.
  rewrite Hrule. fold r. fold pt. unfold store. rewrite bind_modify.
  erewrite drawOverlay_spec by (cbn; eassumption).
  eexists. split; [reflexivity |]. split; reflexivity.
Qed.

(** X19. A pointerdown never touches the label, the camera, the
    renderer, the image or any browser resource: whatever the state and
    whether it returns or throws, only the pointer, the raycaster, the
    stored points, the calls on the overlay and the scene can differ. *)
Theorem onPointerDown_only_draws (ev : PointerEvent) (s : State) :
  let s' := final (onPointerDown ev s) in
  (containerRef s', coordLabel s', overlay s', camera s', renderer s',
   animationId s', planeMesh s', imgW s', imgH s',
   objectURLs s', nextURL s', textureLoads s',
   frameRequests s', nextFrame s', resizeListeners s')
  = (containerRef s, coordLabel s, overlay s, camera s, renderer s,
     animationId s, planeMesh s, imgW s, imgH s,
     objectURLs s, nextURL s, textureLoads s,
     frameRequests s, nextFrame s, resizeListeners s).
Proof.
  cbv zeta. revert s.
  change (preserves (fun s =>
    (containerRef s, coordLabel s, overlay s, camera s, renderer s,
     animationId s, planeMesh s, imgW s, imgH s,
     objectURLs s, nextURL s, textureLoads s,
     frameRequests s, nextFrame s, resizeListeners s)) (onPointerDown ev)).
  script. frame.
Qed.

(** X20. [resizeAll] resizes and nothing more: it does not redraw the
    overlay and leaves the stored points, with the display coordinates
    they were clicked at, the scene, the image and the label as they
    were, whether it returns or throws. *)
Theorem resizeAll_does_not_redraw (s : State) :
  let s' := final (resizeAll s) in
  (points s', overlayCtx s', scene s', planeMesh s', imgW s', imgH s',
   coordLabel s', containerRef s', pointer s', raycaster s')
  = (points s, overlayCtx s, scene s, planeMesh s, imgW s, imgH s,
     coordLabel s, containerRef s, pointer s, raycaster s).
Proof.
  cbv zeta. revert s.
  change (preserves (fun s =>
    (points s, overlayCtx s, scene s, planeMesh s, imgW s, imgH s,
     coordLabel s, containerRef s, pointer s, raycaster s)) resizeAll).
  script. frame.
Qed.

End Properties.

(** * The properties at work on the sample view *)

(** C3, as the specification has it, fails: after mounting, no pointer
    input changes the position of the camera or of the plane. *)
Lemma no_pointer_input_pans :
  ~ (exists (P : Platform) (s : State) (e : Event),
        reachable s /\ is_pointer_event e = true /\
        (option_map OrthographicCamera.position (camera (step e s))
         <> option_map OrthographicCamera.position (camera s)
         \/ option_map Mesh.position (planeMesh (step e s))
            <> option_map Mesh.position (planeMesh s))).
Proof.
  intros (P & s & e & _ & He & Hmoved).
  assert (Hkeep := pointer_events_keep_view e He s).
  fold (step e s) in Hkeep. injection Hkeep as Hcam Hplane.
  rewrite Hcam, Hplane in Hmoved. destruct Hmoved as [H | H]; now apply H.
Qed.

Lemma sample_loaded_reachable : @reachable Reference.platform Sample.loaded.
Proof.
  unfold Sample.loaded, run. cbn [fold_left].
  do 2 apply reachable_step. apply reachable_mount.
Qed.

Lemma sample_three_points_reachable : @reachable Reference.platform Sample.three_points.
Proof.
  unfold Sample.three_points, run. cbn [fold_left].
  do 3 apply reachable_step. apply sample_loaded_reachable.
Qed.

(** With three points stored, a click 10 right of and 10 below the first
    one closes the shape. *)
Lemma onPointerDown_closure_rule_witness :
  exists s',
    @onPointerDown Reference.platform (mkPointerEvent 410 374) Sample.three_points
    = Returned tt s' /\
    List.length (scene s') = 2%nat /\ points s' = [].
Proof.
  edestruct (@onPointerDown_closure_rule Reference.platform Sample.three_points
               (mkPointerEvent 410 374))
    as [_ (s' & Hrun & Hclose & _)]; [reflexivity .. |].
  exists s'. split; [exact Hrun |].
  destruct Hclose as [Hscene Hpts]; [reflexivity |].
  split; [rewrite Hscene; reflexivity | exact Hpts].
Defined.

(** The same three points, and a click 30 right of the first one: too far
    to snap, so a fourth point is stored and the scene keeps its one mesh. *)
Example far_click_stores_a_point :
  let s' := @step Reference.platform (Sample.click 430 374) Sample.three_points in
  List.length (points s') = 4%nat /\ List.length (scene s') = 1%nat.
Proof. vm_compute. split; reflexivity. Qed.

(** Two points stored: a click on the first one does not close, it is
    stored as a third point. *)
Example two_points_never_close :
  let s := @run Reference.platform [Sample.click 400 364; Sample.click 500 364]
                Sample.loaded in
  List.length (points (@step Reference.platform (Sample.click 400 364) s)) = 3%nat.
Proof. vm_compute. reflexivity. Qed.

(** Over the 400 x 300 image centred in the 800 x 600 container, the
    pointer at (300, 289) of the page is over pixel (100, 75) of the image. *)
Lemma pointer_to_texture_coordinates_witness :
  exists l',
    coordLabel (final (@onPointerMove Reference.platform (mkPointerEvent 300 289)
                                       Sample.loaded)) = Some l' /\
    Label.textContent l' = "(100, 75)"%string /\
    pointer (final (@onPointerMove Reference.platform (mkPointerEvent 300 289)
                                    Sample.loaded)) = Vector2.mk (-0.25) 0.25.
Proof.
  edestruct (@pointer_to_texture_coordinates Reference.platform Sample.loaded
               (mkPointerEvent 300 289))
    as (Hpointer & _ & _ & _ & Hlabel); [reflexivity .. |].
  edestruct Hlabel as (l' & Hl' & Htext); [reflexivity | reflexivity |].
  exists l'. split; [exact Hl' |]. split.
  - rewrite Htext. reflexivity.
  - rewrite Hpointer. reflexivity.
Defined.

(** The window grows to 1000 x 500: renderer, camera and overlay follow. *)
Lemma resizeAll_synchronizes_witness :
  exists s' cam',
    resizeAll (set_containerRef
                 (Some (HTMLDivElement.mk (DOMRect.mk 0 64 1000 500) 1000 500 true))
                 Sample.mounted) = Returned tt s' /\
    overlay s' = Some (HTMLCanvasElement.mk 1000 500) /\
    camera s' = Some cam' /\
    OrthographicCamera.left (OrthographicCamera.frustum cam') = -500 /\
    OrthographicCamera.right (OrthographicCamera.frustum cam') = 500 /\
    OrthographicCamera.top (OrthographicCamera.frustum cam') = 250 /\
    OrthographicCamera.bottom (OrthographicCamera.frustum cam') = -250.
Proof.
  edestruct (resizeAll_synchronizes
               (set_containerRef
                  (Some (HTMLDivElement.mk (DOMRect.mk 0 64 1000 500) 1000 500 true))
                  Sample.mounted))
    as (s' & r' & cam' & cv' & Hrun & _ & _ & _ & Hcam & Hl & Hr & Ht & Hb & _ & Hcv & Hw & Hh);
    [reflexivity .. |].
  exists s', cam'. split; [exact Hrun |]. split.
  - rewrite Hcv. destruct cv'. simpl in Hw, Hh. now rewrite Hw, Hh.
  - split; [exact Hcam |].
    rewrite Hl, Hr, Ht, Hb. repeat split; reflexivity.
Defined.


(** Redrawing the three stored points. *)
Lemma drawOverlay_redraw_witness :
  exists s',
    drawOverlay (set_overlayCtx (Some (CanvasRenderingContext2D.mk [])) Sample.three_points)
    = Returned tt s' /\
    option_map CanvasRenderingContext2D.calls (overlayCtx s')
    = Some [ClearRect 0 0 800 600; SetStrokeStyle "lime"; SetLineWidth 2;
            BeginPath; MoveTo 400 300; LineTo 500 300; LineTo 500 400; Stroke;
            SetFillStyle "cyan";
            BeginPath; Arc 400 300 5 0 (Math_PI * 2); Fill;
            BeginPath; Arc 500 300 5 0 (Math_PI * 2); Fill;
            BeginPath; Arc 500 400 5 0 (Math_PI * 2); Fill].
Proof.
  eexists. split.
  - apply (drawOverlay_redraw
             (set_overlayCtx (Some (CanvasRenderingContext2D.mk [])) Sample.three_points)
             (CanvasRenderingContext2D.mk []) (HTMLCanvasElement.mk 800 600));
      reflexivity.
  - vm_compute. reflexivity.
Defined.

(** A pointerdown in the corner of the container, off the image. *)
Lemma onPointerDown_miss_witness :
  exists s',
    @onPointerDown Reference.platform (mkPointerEvent 10 70) Sample.three_points
    = Returned tt s' /\
    points s' = points Sample.three_points /\
    scene s' = scene Sample.three_points /\
    overlayCtx s' = overlayCtx Sample.three_points.
Proof.
  edestruct (@onPointerDown_miss Reference.platform Sample.three_points
               (mkPointerEvent 10 70))
    as (s' & Hrun & _ & Hpts & Hscene & Hctx & _); [reflexivity .. |].
  exists s'. repeat split; assumption.
Defined.

(** Closing the three stored points. *)
Lemma createShape_resets_witness :
  points (final (createShape Sample.three_points)) = [] /\
  imgW (final (createShape Sample.three_points)) = 400 /\
  imgH (final (createShape Sample.three_points)) = 300 /\
  planeMesh (final (createShape Sample.three_points)) = planeMesh Sample.three_points.
Proof.
  destruct (createShape_resets Sample.three_points (final (createShape Sample.three_points)))
    as (Hpts & _ & Hw & Hh & Hplane & _); [reflexivity |].
  split; [exact Hpts |]. split; [rewrite Hw; reflexivity |].
  split; [rewrite Hh; reflexivity | exact Hplane].
Defined.

(** * Further properties at work on the sample view *)

Lemma sample_closed_reachable : @reachable Reference.platform Sample.closed.
Proof. apply reachable_step, sample_three_points_reachable. Qed.

Lemma sample_resized_reachable : @reachable Reference.platform Sample.resized.
Proof. apply reachable_step, sample_loaded_reachable. Qed.

Lemma sample_mounted_reachable : @reachable Reference.platform Sample.mounted.
Proof. apply reachable_mount. Qed.

Lemma sample_choosing_reachable : @reachable Reference.platform Sample.choosing.
Proof. apply reachable_step, sample_mounted_reachable. Qed.

(** The label was placed by a hit at (300, 289); the pointer then leaves
    the image: the label shows a dash where it was. *)
Lemma onPointerMove_miss_witness :
  exists s' l',
    @onPointerMove Reference.platform (mkPointerEvent 10 70) Sample.hovered
    = Returned tt s' /\
    coordLabel s' = Some l' /\
    Label.textContent l' = "—"%string /\
    Label.style_left l' = "300px"%string /\
    Label.style_top l' = "205px"%string.
Proof.
  edestruct (@onPointerMove_miss Reference.platform Sample.hovered (mkPointerEvent 10 70))
    as (s' & l' & Hrun & Hl' & Htext & Hleft & Htop); [reflexivity .. |].
  exists s', l'. split; [exact Hrun |]. split; [exact Hl' |].
  rewrite Htext, Hleft, Htop. repeat split; vm_compute; reflexivity.
Defined.

Lemma onPointerMove_places_label_witness :
  exists s' l',
    @onPointerMove Reference.platform (mkPointerEvent 300 289) Sample.loaded
    = Returned tt s' /\
    coordLabel s' = Some l' /\
    Label.style_left l' = "300px"%string /\ Label.style_top l' = "205px"%string.
Proof.
  edestruct (@onPointerMove_places_label Reference.platform Sample.loaded
               (mkPointerEvent 300 289))
    as (s' & l' & Hrun & Hl' & Hleft & Htop); [reflexivity .. |].
  exists s', l'. split; [exact Hrun |]. split; [exact Hl' |].
  rewrite Hleft, Htop. split; reflexivity.
Defined.

Lemma closed_shapes_have_three_vertices_witness :
  Forall closed_shape_ok (scene Sample.closed) /\ List.length (scene Sample.closed) = 2%nat.
Proof.
  split.
  - apply (@closed_shapes_have_three_vertices Reference.platform).
    exact sample_closed_reachable.
  - reflexivity.
Defined.

Lemma plane_matches_image_witness : plane_consistent Sample.closed.
Proof.
  apply (@plane_matches_image Reference.platform). exact sample_closed_reachable.
Defined.

Lemma live_urls_are_loading_witness :
  (forall u, In u (objectURLs Sample.choosing) <-> In u (textureLoads Sample.choosing)) /\
  objectURLs Sample.loaded = [].
Proof.
  split.
  - apply (@live_urls_are_loading Reference.platform Sample.choosing).
    exact sample_choosing_reachable.
  - apply (@live_urls_are_loading Reference.platform Sample.loaded).
    + exact sample_loaded_reachable.
    + reflexivity.
Defined.

Lemma view_stays_synchronized_witness : synchronized Sample.resized.
Proof.
  apply (@view_stays_synchronized Reference.platform). exact sample_resized_reachable.
Defined.

Lemma camera_pose_is_fixed_witness :
  camera_pose Sample.resized =
  Some (Vector3.mk 0 0 10, Vector3.mk 0 0 0, 0x1.999999999999ap-4, 1000).
Proof.
  apply (@camera_pose_is_fixed Reference.platform). exact sample_resized_reachable.
Defined.

Lemma render_loop_one_frame_pending_witness :
  exists h,
    animationId Sample.three_points = Some h /\
    frameRequests Sample.three_points = [h] /\
    (h < nextFrame Sample.three_points)%nat /\
    resizeListeners Sample.three_points = [ResizeAll].
Proof.
  apply (@render_loop_one_frame_pending Reference.platform).
  exact sample_three_points_reachable.
Defined.

Lemma animation_frame_renders_once_witness :
  exists s' r,
    @dispatch Reference.platform (AnimationFrame 1%nat) Sample.loaded = Returned tt s' /\
    renderer Sample.loaded = Some r /\
    renderer s' = Some (WebGLRenderer.render r) /\
    animationId s' = Some 2%nat.
Proof.
  destruct (@animation_frame_renders_once Reference.platform Sample.loaded 1%nat)
    as (s' & r & Hrun & Hr & Hr' & Ha & _).
  - exact sample_loaded_reachable.
  - reflexivity.
  - exists s', r. repeat split; assumption.
Defined.

Lemma pointer_events_throw_until_loaded_witness :
  (exists s', @onPointerMove Reference.platform (mkPointerEvent 10 70) Sample.mounted
              = Threw TypeError s') /\
  (exists s', @onPointerDown Reference.platform (mkPointerEvent 10 70) Sample.choosing
              = Threw TypeError s').
Proof.
  split.
  - destruct (@pointer_events_throw_until_loaded Reference.platform Sample.mounted
                (mkPointerEvent 10 70))
      as [(s' & Hrun & _) _]; [exact sample_mounted_reachable | reflexivity |].
    now exists s'.
  - destruct (@pointer_events_throw_until_loaded Reference.platform Sample.choosing
                (mkPointerEvent 10 70))
      as [_ (s' & Hrun & _)]; [exact sample_choosing_reachable | reflexivity |].
    now exists s'.
Defined.

Lemma pointerdown_is_safe_once_loaded_witness :
  exists s',
    @onPointerDown Reference.platform (mkPointerEvent 410 374) Sample.three_points
    = Returned tt s'.
Proof.
  destruct (@pointerdown_is_safe_once_loaded Reference.platform Sample.three_points)
    as [_ Hsafe].
  - exact sample_three_points_reachable.
  - vm_compute. discriminate.
  - apply Hsafe.
Defined.


Lemma texture_load_sets_image_witness :
  exists s',
    @dispatch Reference.platform (TextureLoaded 0%nat (mkImage 400 300)) Sample.choosing
    = Returned tt s' /\
    imgW s' = 400 /\ imgH s' = 300 /\ ~ In 0%nat (textureLoads s').
Proof.
  destruct (@texture_load_sets_image Reference.platform Sample.choosing 0%nat
              (mkImage 400 300))
    as (s' & plane & Hrun & Hw & Hh & _ & _ & _ & Hdone & _); [vm_compute; now left |].
  exists s'. split; [exact Hrun |]. split; [exact Hw |]. split; [exact Hh | exact Hdone].
Defined.

Lemma stored_point_is_drawn_witness :
  exists s',
    @onPointerDown Reference.platform (mkPointerEvent 430 374) Sample.three_points
    = Returned tt s' /\
    List.length (points s') = 4%nat.
Proof.
  edestruct (@stored_point_is_drawn Reference.platform Sample.three_points
               (mkPointerEvent 430 374))
    as (s' & Hrun & Hpts & _); [reflexivity .. |].
  exists s'. split; [exact Hrun |]. rewrite Hpts. reflexivity.
Defined.
